(** * wt-agent: the worktree state and coordination layer of [GitService]

    A shallow embedding of [src/services/git.ts] (class [GitService]) and the
    properties of its lock manager, checkpoint manager, port lease allocator,
    garbage collector and conflict status parser.

    Conventions of the embedding.
    - A JavaScript string is a [string]; each [ascii] stands for one code unit
      in the range 0..255 (code units above 255 are not represented).
    - The file system is a finite map from directory paths to the content of
      the two files the service reads and writes there ([metadata.json] and
      [.env.local]).
    - The external command runner ([child_process.execSync]) is a parameter:
      an arbitrary function of the command, the working directory and the
      world, which fails or returns text and may change the world.
    - A thrown exception is the [Throw] result; the world reached when the
      exception is thrown is kept, as in the source.
    - [metadata.json] holds text that [JSON.parse] rejects or a JSON object
      whose fields are null, booleans, integers or strings.
    - The instant read by [new Date()] is an argument of the calls that use
      it. *)

From Stdlib Require Import String Ascii ZArith List Lia Bool.
From stdpp Require Import base gmap strings list pretty.

Local Open Scope Z_scope.

(* ===================================================================== *)
(** * JavaScript string primitives used by the service *)
(* ===================================================================== *)

Module Js.

(** White space and line terminators removed by [String.prototype.trim],
    restricted to code units below 256: TAB, LF, VT, FF, CR, SP, NBSP. *)
Definition is_ws (c : ascii) : bool :=
  match nat_of_ascii c with
  | 9%nat | 10%nat | 11%nat | 12%nat | 13%nat | 32%nat | 160%nat => true
  | _ => false
  end.

Definition is_empty (s : string) : bool :=
  match s with EmptyString => true | String _ _ => false end.

Fixpoint trimStart (s : string) : string :=
  match s with
  | EmptyString => EmptyString
  | String c s' => if is_ws c then trimStart s' else s
  end.

Fixpoint trimEnd (s : string) : string :=
  match s with
  | EmptyString => EmptyString
  | String c s' =>
      let t := trimEnd s' in
      if is_ws c && is_empty t then EmptyString else String c t
  end.

(** [s.trim()] *)
Definition trim (s : string) : string := trimEnd (trimStart s).

(** [s.startsWith(p)] *)
Definition startsWith (p s : string) : bool := String.prefix p s.

(** [s.includes(p)] *)
Fixpoint includes (p s : string) : bool :=
  String.prefix p s ||
  match s with
  | EmptyString => false
  | String _ s' => includes p s'
  end.

(** [s.substring(n)] *)
Fixpoint substringFrom (n : nat) (s : string) : string :=
  match n, s with
  | O, _ => s
  | S n', EmptyString => EmptyString
  | S n', String _ s' => substringFrom n' s'
  end.

(** [s.substring(0, n)] *)
Fixpoint substringTo (n : nat) (s : string) : string :=
  match n, s with
  | O, _ => EmptyString
  | S n', EmptyString => EmptyString
  | S n', String c s' => String c (substringTo n' s')
  end.

(** [s.replace(p, r)] for a string pattern [p]: the first occurrence only.
    The replacement strings of the service contain no [$]. *)
Fixpoint replace (p r s : string) : string :=
  if String.prefix p s then r +:+ substringFrom (String.length p) s
  else match s with
       | EmptyString => EmptyString
       | String c s' => String c (replace p r s')
       end.

Definition LF : ascii := ascii_of_nat 10.
Definition CR : ascii := ascii_of_nat 13.

(** [s.split(/\r?\n/)] *)
Fixpoint splitLines (s : string) : list string :=
  match s with
  | EmptyString => [EmptyString]
  | String c s' =>
      let r := splitLines s' in
      if Ascii.eqb c LF then EmptyString :: r
      else if Ascii.eqb c CR && String.prefix (String LF EmptyString) s' then r
      else match r with
           | h :: t => String c h :: t
           | [] => [String c EmptyString]
           end
  end.

(** [xs.includes(x)] on an array of strings *)
Definition arrayIncludes (x : string) (xs : list string) : bool :=
  existsb (String.eqb x) xs.

End Js.

(* ===================================================================== *)
(** * Conflict status parser: the body of [GitService.status] *)
(* ===================================================================== *)

Record StatusReport := {
  isClean : bool;
  conflicts : list string;
  modified : list string;
  added : list string;
  deleted : list string
}.

(** The predicate of [filter] in [status] and [isClean]:
    [line.trim() !== '' && !line.includes('metadata.json')]. *)
Definition keepLine (line : string) : bool :=
  negb (Js.is_empty (Js.trim line)) && negb (Js.includes "metadata.json" line).

Definition codeOf (line : string) : string := Js.substringTo 2 line.
Definition fileOf (line : string) : string := Js.substringFrom 3 line.

Definition isConflictCode (code : string) : bool :=
  String.eqb code "UU" || String.eqb code "AA" || String.eqb code "DD" ||
  String.eqb code "AU" || String.eqb code "UA" || String.eqb code "DU" ||
  String.eqb code "UD".

(** The four arrays that [lines.forEach] pushes to. *)
Record Buckets := {
  b_conflicts : list string;
  b_modified : list string;
  b_added : list string;
  b_deleted : list string
}.

Definition noBuckets : Buckets := Build_Buckets [] [] [] [].

(** One iteration of [lines.forEach(line => ...)]; [push] appends. *)
Definition classifyLine (b : Buckets) (line : string) : Buckets :=
  let code := codeOf line in
  let file := fileOf line in
  if isConflictCode code then
    Build_Buckets (b_conflicts b ++ [file]) (b_modified b) (b_added b) (b_deleted b)
  else if Js.includes "M" code then
    Build_Buckets (b_conflicts b) (b_modified b ++ [file]) (b_added b) (b_deleted b)
  else if Js.includes "A" code || String.eqb code "??" then
    Build_Buckets (b_conflicts b) (b_modified b) (b_added b ++ [file]) (b_deleted b)
  else if Js.includes "D" code then
    Build_Buckets (b_conflicts b) (b_modified b) (b_added b) (b_deleted b ++ [file])
  else b.

(** [status] from the split output on: filter, classify, build the result. *)
Definition parse (rawLines : list string) : StatusReport :=
  let lines := List.filter keepLine rawLines in
  let b := fold_left classifyLine lines noBuckets in
  {| isClean := Nat.eqb (List.length lines) 0;
     conflicts := b_conflicts b;
     modified := b_modified b;
     added := b_added b;
     deleted := b_deleted b |}.

(** The classification in the words of the specification: the bucket of a
    two-character code, by priority. *)
Inductive Bucket := Conflict | Modified | Added | Deleted.

Definition bucket_eqb (x y : Bucket) : bool :=
  match x, y with
  | Conflict, Conflict | Modified, Modified | Added, Added | Deleted, Deleted => true
  | _, _ => false
  end.

Definition conflictCodes : list string := ["UU"; "AA"; "DD"; "AU"; "UA"; "DU"; "UD"].

Definition bucketOfCode (code : string) : option Bucket :=
  if Js.arrayIncludes code conflictCodes then Some Conflict
  else if Js.includes "M" code then Some Modified
  else if Js.includes "A" code || String.eqb code "??" then Some Added
  else if Js.includes "D" code then Some Deleted
  else None.

Definition inBucket (k : Bucket) (line : string) : bool :=
  match bucketOfCode (codeOf line) with
  | Some k' => bucket_eqb k k'
  | None => false
  end.

Definition filesIn (k : Bucket) (lines : list string) : list string :=
  map fileOf (List.filter (inBucket k) lines).

(* ===================================================================== *)
(** * Metadata documents and the file system *)
(* ===================================================================== *)

(** The JSON values a metadata field can hold.  [JNum] is an integer-valued
    number; nested objects and arrays are never written by the service and
    are not represented. *)
Inductive jval :=
| JNull
| JBool (b : bool)
| JNum (n : Z)
| JStr (s : string).

#[global] Instance jval_eq_dec : EqDecision jval.
Proof. solve_decision. Defined.

(** JavaScript truthiness of a property read; [None] is [undefined]. *)
Definition truthy (v : option jval) : bool :=
  match v with
  | None => false
  | Some JNull => false
  | Some (JBool b) => b
  | Some (JNum n) => negb (n =? 0)
  | Some (JStr s) => negb (Js.is_empty s)
  end.

(** [a !== b] where [b] is a string. *)
Definition strictNeqStr (a : option jval) (b : string) : bool :=
  match a with
  | Some (JStr s) => negb (String.eqb s b)
  | _ => true
  end.

(** Decimal rendering of an integer, as in a template literal. *)
Definition numToString (n : Z) : string :=
  pretty n.

(** [`${v}`] *)
Definition toString (v : option jval) : string :=
  match v with
  | None => "undefined"
  | Some JNull => "null"
  | Some (JBool true) => "true"
  | Some (JBool false) => "false"
  | Some (JNum n) => numToString n
  | Some (JStr s) => s
  end.

(** Content of [metadata.json]: text that [JSON.parse] rejects, or an object. *)
Inductive MetaFile :=
| Corrupt
| Json (d : gmap string jval).

(** What the service sees of one directory. *)
Record Dir := {
  metadata : option MetaFile;   (* metadata.json, if the file exists *)
  envLocal : option string      (* .env.local, if the file exists *)
}.

Definition setMetadata (m : option MetaFile) (d : Dir) : Dir :=
  {| metadata := m; envLocal := envLocal d |}.

Definition setEnvLocal (e : option string) (d : Dir) : Dir :=
  {| metadata := metadata d; envLocal := e |}.

(** [interface WorktreeInfo] *)
Record WorktreeInfo := {
  path : string;
  branch : string;
  wtClean : bool;               (* isClean; the name is the status report's *)
  lockedBy : option jval
}.

(** [Partial<WorktreeInfo>] as [listWorktrees] builds it. *)
Record PartialWt := {
  p_path : option string;
  p_branch : option string
}.

Definition truthyStr (s : option string) : bool :=
  match s with
  | Some s => negb (Js.is_empty s)
  | None => false
  end.

(** The test [currentWt.path && currentWt.branch &&
    currentWt.path.includes('.worktrees')]: the path and branch of the entry
    when it passes. *)
Definition readyWt (cur : PartialWt) : option (string * string) :=
  match p_path cur, p_branch cur with
  | Some p, Some b =>
      if truthyStr (Some p) && truthyStr (Some b) && Js.includes ".worktrees" p
      then Some (p, b) else None
  | _, _ => None
  end.

(** How a line of the porcelain listing changes [currentWt]. *)
Definition nextPartial (cur : PartialWt) (line : string) : PartialWt :=
  if Js.startsWith "worktree " line then
    {| p_path := Some (Js.trim (Js.replace "worktree " EmptyString line)); p_branch := None |}
  else if Js.startsWith "branch " line then
    let branchRef := Js.trim (Js.replace "branch " EmptyString line) in
    {| p_path := p_path cur; p_branch := Some (Js.replace "refs/heads/" EmptyString branchRef) |}
  else cur.

(** The messages of the [Error]s thrown by the service, by kind. *)
Inductive Error :=
| NotFound (feature : string)         (* Worktree for feature ... does not exist *)
| LockConflict (owner : option jval)  (* Worktree is already locked by agent: ... *)
| LockedByAnother (owner : option jval) (* Worktree is locked by another agent (...) *)
| NoCheckpoints (feature : string)    (* No checkpoints found for ... *)
| InvalidMetadata (feature : string)  (* Invalid metadata for ... *)
| NoRestorePoint (feature : string)   (* No restore point found for ... *)
| RestoreFailed (cause : Error)       (* Failed to restore checkpoint: ... *)
| SaveFailed (cause : Error)          (* Failed to save checkpoint: ... *)
| StatusFailed (cause : Error)        (* Failed to get status: ... *)
| RangeExhausted                      (* No available ports in range 8000-8050 *)
| CommandFailure (message : string)   (* thrown by execSync *)
| SyntaxError                         (* thrown by JSON.parse *)
| FsError (p : string).               (* thrown by fs on a missing directory *)

Inductive Result (A : Type) :=
| Ok (a : A)
| Throw (e : Error).
Arguments Ok {A} a.
Arguments Throw {A} e.

(** What the command runner reports. *)
Inductive Outcome :=
| Exit0 (stdout : string)
| Failed (message : string).

(** Lower and upper end of the port pool. *)
Definition PORT_MIN : Z := 8000.
Definition PORT_MAX : Z := 8050.

(** [usedPorts.has(p)] *)
Definition setHas (v : jval) (used : list jval) : bool := bool_decide (v ∈ used).

(** [usedPorts.add(v)] *)
Definition setAdd (v : jval) (used : list jval) : list jval :=
  if setHas v used then used else used ++ [v].

(** [for (let p = ...; p <= 8050; p++) if (!usedPorts.has(p)) { assignedPort = p; break; }]
    with [n] iterations left; -1 when the loop ends without a hit. *)
Fixpoint scanPorts (n : nat) (p : Z) (used : list jval) : Z :=
  match n with
  | O => -1
  | S k => if negb (setHas (JNum p) used) then p else scanPorts k (p + 1) used
  end.

Definition firstFreePort (used : list jval) : Z :=
  scanPorts (Z.to_nat (PORT_MAX - PORT_MIN + 1)) PORT_MIN used.

(** Line terminators that [.] does not match and that [^]/[$] with the [m]
    flag recognise, among code units below 256. *)
Definition isLineTerminator (c : ascii) : bool :=
  Ascii.eqb c Js.LF || Ascii.eqb c Js.CR.

Fixpoint restOfLine (s : string) : string :=
  match s with
  | EmptyString => EmptyString
  | String c s' => if isLineTerminator c then s else restOfLine s'
  end.

(** [envContent.replace(/^PORT=.*$/m, r)]; [None] when the regex has no match.
    [bol] tells whether the current position starts a line. *)
Fixpoint replacePortLine (bol : bool) (r s : string) : option string :=
  if bol && String.prefix "PORT=" s then Some (r +:+ restOfLine s)
  else match s with
       | EmptyString => None
       | String c s' =>
           match replacePortLine (isLineTerminator c) r s' with
           | Some t => Some (String c t)
           | None => None
           end
       end.

Definition NL : string := String Js.LF EmptyString.

(** A double quote. *)
Definition DQ : string := String (ascii_of_nat 34) EmptyString.

(** The new content of [.env.local]. *)
Definition upsertPort (envContent : string) (port : Z) : string :=
  let line := "PORT=" +:+ numToString port in
  let content :=
    match replacePortLine true line envContent with
    | Some replaced => replaced
    | None => envContent +:+ NL +:+ line +:+ NL
    end in
  Js.trim content +:+ NL.

(** The two regex replacements of [getWorktreeDir]. *)
Definition isSeparator (c : ascii) : bool :=
  Ascii.eqb c "/" || Ascii.eqb c "\".

Definition isAllowed (c : ascii) : bool :=
  let n := nat_of_ascii c in
  ((97 <=? n) && (n <=? 122) || (65 <=? n) && (n <=? 90) ||
   (48 <=? n) && (n <=? 57) || (n =? 45))%nat.

Fixpoint replaceSeparators (s : string) : string :=
  match s with
  | EmptyString => EmptyString
  | String c s' => String (if isSeparator c then "-"%char else c) (replaceSeparators s')
  end.

Fixpoint stripDisallowed (s : string) : string :=
  match s with
  | EmptyString => EmptyString
  | String c s' => if isAllowed c then String c (stripDisallowed s') else stripDisallowed s'
  end.

(** [path.join(a, b)] for a normalised [a] and a segment [b] without
    separators or dots. *)
Definition pathJoin (a b : string) : string :=
  if Js.is_empty b then a else a +:+ "/" +:+ b.

(* ===================================================================== *)
(** * The world and the monad of service calls *)
(* ===================================================================== *)

(** The world: the state of the version control system, opaque to the
    service, and the directories the service looks into. *)
Record World (Vcs : Type) := mkWorld {
  vcs : Vcs;
  disk : gmap string Dir
}.
Arguments mkWorld {Vcs} _ _.
Arguments vcs {Vcs} _.
Arguments disk {Vcs} _.

(** A call runs on a world and returns or throws, in a new world. *)
Definition M (Vcs A : Type) : Type := World Vcs -> Result A * World Vcs.

Definition ret {Vcs A} (a : A) : M Vcs A := fun w => (Ok a, w).

Definition bind {Vcs A B} (m : M Vcs A) (f : A -> M Vcs B) : M Vcs B := fun w =>
  match m w with
  | (Ok a, w') => f a w'
  | (Throw e, w') => (Throw e, w')
  end.

Notation "'let*' x ':=' m 'in' k" := (bind m (fun x => k))
  (at level 10, x name, m at level 100, k at level 200).
Notation "m ';;;' k" := (bind m (fun _ => k))
  (at level 100, k at level 200, right associativity).

Definition throw {Vcs A} (e : Error) : M Vcs A := fun w => (Throw e, w).

(** [try { m } catch (e) { h e }] *)
Definition tryCatch {Vcs A} (m : M Vcs A) (h : Error -> M Vcs A) : M Vcs A := fun w =>
  match m w with
  | (Ok a, w') => (Ok a, w')
  | (Throw e, w') => h e w'
  end.

(** [for (const x of l) { b = f b x }] *)
Fixpoint foldM {Vcs A B} (f : B -> A -> M Vcs B) (l : list A) (b : B) : M Vcs B :=
  match l with
  | [] => ret b
  | x :: l' => let* b' := f b x in foldM f l' b'
  end.

(** [metadata.json] of directory [p], if the directory and the file exist. *)
Definition metaOf (dk : gmap string Dir) (p : string) : option MetaFile :=
  match dk !! p with
  | Some d => metadata d
  | None => None
  end.

Definition envOf (dk : gmap string Dir) (p : string) : option string :=
  match dk !! p with
  | Some d => envLocal d
  | None => None
  end.

(** The metadata document of directory [p], when it parses. *)
Definition docOf (dk : gmap string Dir) (p : string) : option (gmap string jval) :=
  match metaOf dk p with
  | Some (Json d) => Some d
  | _ => None
  end.

(** Field [k] of the metadata document of [p]; [None] is [undefined]. *)
Definition fieldOf (dk : gmap string Dir) (p k : string) : option jval :=
  match docOf dk p with
  | Some d => d !! k
  | None => None
  end.

Section Fs.
Context {Vcs : Type}.

(** [fs.existsSync(p)] for a directory. *)
Definition existsSync (p : string) : M Vcs bool := fun w =>
  (Ok (bool_decide (is_Some (disk w !! p))), w).

(** [fs.existsSync(path.join(p, 'metadata.json'))] *)
Definition existsMetadata (p : string) : M Vcs bool := fun w =>
  (Ok (bool_decide (is_Some (metaOf (disk w) p))), w).

(** [JSON.parse(fs.readFileSync(path.join(p, 'metadata.json'), 'utf-8'))] *)
Definition readJson (p : string) : M Vcs (gmap string jval) := fun w =>
  match metaOf (disk w) p with
  | Some (Json d) => (Ok d, w)
  | Some Corrupt => (Throw SyntaxError, w)
  | None => (Throw (FsError p), w)
  end.

(** [fs.writeFileSync(path.join(p, 'metadata.json'), JSON.stringify(d, null, 2), 'utf-8')] *)
Definition writeJson (p : string) (d : gmap string jval) : M Vcs unit := fun w =>
  match disk w !! p with
  | Some dir => (Ok tt, mkWorld (vcs w) (<[p := setMetadata (Some (Json d)) dir]> (disk w)))
  | None => (Throw (FsError p), w)
  end.

(** [fs.unlinkSync(path.join(p, 'metadata.json'))] *)
Definition unlinkMetadata (p : string) : M Vcs unit := fun w =>
  match disk w !! p with
  | Some dir =>
      match metadata dir with
      | Some _ => (Ok tt, mkWorld (vcs w) (<[p := setMetadata None dir]> (disk w)))
      | None => (Throw (FsError p), w)
      end
  | None => (Throw (FsError p), w)
  end.

(** [let data: any = {}; if (fs.existsSync(metadataPath)) data = JSON.parse(...)] *)
Definition loadOrEmpty (p : string) : M Vcs (gmap string jval) :=
  let* ex := existsMetadata p in
  if ex then readJson p else ret ∅.

(** [let envContent = ''; if (fs.existsSync(envPath)) envContent = fs.readFileSync(envPath, 'utf-8')];
    [.env.local], when it exists, is taken to be a readable regular file. *)
Definition readEnvOrEmpty (p : string) : M Vcs string := fun w =>
  match envOf (disk w) p with
  | Some s => (Ok s, w)
  | None => (Ok EmptyString, w)
  end.

(** [fs.writeFileSync(path.join(p, '.env.local'), s, 'utf-8')]; the file is
    taken to be writable, so the write fails for a missing directory only. *)
Definition writeEnv (p : string) (s : string) : M Vcs unit := fun w =>
  match disk w !! p with
  | Some dir => (Ok tt, mkWorld (vcs w) (<[p := setEnvLocal (Some s) dir]> (disk w)))
  | None => (Throw (FsError p), w)
  end.

(** [getLockStatus]: the [lockedBy] field, [undefined] when the file is
    missing or does not parse. *)
Definition getLockStatus (wtPath : string) : M Vcs (option jval) :=
  let* ex := existsMetadata wtPath in
  if ex then
    tryCatch (let* data := readJson wtPath in ret (data !! "lockedBy"))
             (fun _ => ret None)
  else ret None.

End Fs.

(* ===================================================================== *)
(** * The service: [class GitService] *)
(* ===================================================================== *)

(** The commands that [listWorktrees] and [isClean] run. *)
Definition LIST_CMD : string := "git worktree list --porcelain".
Definition STATUS_CMD : string := "git status --porcelain".

(** The commands that [gc] runs to refresh the base branch and to remove a
    worktree and its branch. *)
Definition fetchCmd (base : string) : string := "git fetch origin " +:+ base.
Definition removeCmd (p : string) : string := "git worktree remove " +:+ p.
Definition deleteCmd (b : string) : string := "git branch -d " +:+ b.

(** The object literal [{ lockedBy: agentId, timestamp: now }]. *)
Definition lockData (agentId now : string) : gmap string jval :=
  <["timestamp" := JStr now]> (<["lockedBy" := JStr agentId]> ∅).

Section GitService.
Context {Vcs : Type}.

(** [execSync(cmd, { cwd, ... })]: the external command runner. *)
Variable run : string -> string -> World Vcs -> Outcome * World Vcs.

(** [this.baseDir], a normalised absolute path. *)
Variable baseDir : string.

(** [exec]: run and trim the output, or throw the runner's message. *)
Definition exec (cmd cwd : string) : M Vcs string := fun w =>
  match run cmd cwd w with
  | (Exit0 out, w') => (Ok (Js.trim out), w')
  | (Failed msg, w') => (Throw (CommandFailure msg), w')
  end.

Definition getWorktreeDir (feature : string) : string :=
  let normalized := stripDisallowed (replaceSeparators feature) in
  pathJoin (pathJoin baseDir ".worktrees") normalized.

(** [isClean(wtPath)] *)
Definition isCleanAt (wtPath : string) : M Vcs bool :=
  tryCatch
    (let* output := exec STATUS_CMD wtPath in
     let lines := List.filter keepLine (Js.splitLines output) in
     ret (Nat.eqb (List.length lines) 0))
    (fun _ => ret false).

(** The push of [listWorktrees], guarded by [readyWt]. *)
Definition flushWt (cur : PartialWt) (worktrees : list WorktreeInfo)
  : M Vcs (list WorktreeInfo) :=
  match readyWt cur with
  | Some (p, b) =>
      let* clean := isCleanAt p in
      let* lock := getLockStatus p in
      ret (worktrees ++ [{| path := p; branch := b; wtClean := clean; lockedBy := lock |}])
  | None => ret worktrees
  end.

(** One iteration of the loop over the lines of the porcelain listing. *)
Definition listStep (st : PartialWt * list WorktreeInfo) (line : string)
  : M Vcs (PartialWt * list WorktreeInfo) :=
  let '(cur, worktrees) := st in
  if Js.startsWith "worktree " line then
    let* worktrees' := flushWt cur worktrees in
    ret (nextPartial cur line, worktrees')
  else ret (nextPartial cur line, worktrees).

Definition listWorktrees : M Vcs (list WorktreeInfo) :=
  let* output := exec LIST_CMD baseDir in
  let lines := Js.splitLines output in
  let* st := foldM listStep lines ({| p_path := None; p_branch := None |}, []) in
  flushWt (fst st) (snd st).

(** [lockWorktree]; [now] is [new Date().toISOString()]. *)
Definition lockWorktree (feature agentId now : string) : M Vcs unit :=
  let wtPath := getWorktreeDir feature in
  let* ex := existsSync wtPath in
  if negb ex then throw (NotFound feature) else
  let* currentLock := getLockStatus wtPath in
  if truthy currentLock && strictNeqStr currentLock agentId then
    throw (LockConflict currentLock)
  else
    writeJson wtPath (lockData agentId now).

(** [unlockWorktree] *)
Definition unlockWorktree (feature agentId : string) (force : bool) : M Vcs unit :=
  let wtPath := getWorktreeDir feature in
  let* ex := existsSync wtPath in
  if negb ex then throw (NotFound feature) else
  let* currentLock := getLockStatus wtPath in
  if negb (truthy currentLock) then ret tt else
  if strictNeqStr currentLock agentId && negb force then
    throw (LockedByAnother currentLock)
  else
    let* exm := existsMetadata wtPath in
    if exm then unlinkMetadata wtPath else ret tt.

(** [handoff]; [now] is [new Date().toISOString()]. *)
Definition handoff (feature toAgentId now : string) : M Vcs unit :=
  let wtPath := getWorktreeDir feature in
  let* ex := existsSync wtPath in
  if negb ex then throw (NotFound feature) else
  let* data := loadOrEmpty wtPath in
  let data := <["lockedBy" := JStr toAgentId]> data in
  let data := <["timestamp" := JStr now]> data in
  writeJson wtPath data.

(** [contextSet] *)
Definition contextSet (feature contextMsg : string) : M Vcs unit :=
  let wtPath := getWorktreeDir feature in
  let* ex := existsSync wtPath in
  if negb ex then throw (NotFound feature) else
  let* data := loadOrEmpty wtPath in
  writeJson wtPath (<["context" := JStr contextMsg]> data).

(** [contextGet]; returns [context]. *)
Definition contextGet (feature : string) : M Vcs (option jval) :=
  let wtPath := getWorktreeDir feature in
  let* ex := existsSync wtPath in
  if negb ex then throw (NotFound feature) else
  let* exm := existsMetadata wtPath in
  if exm then
    let* data := readJson wtPath in
    ret (data !! "context")
  else ret None.

(** [checkpointSave]; returns [sha]. *)
Definition checkpointSave (feature message : string) : M Vcs string :=
  let wtPath := getWorktreeDir feature in
  let* ex := existsSync wtPath in
  if negb ex then throw (NotFound feature) else
  tryCatch
    (let* currentSha := exec "git rev-parse HEAD" wtPath in
     exec "git add ." wtPath ;;;
     tryCatch
       (exec ("git commit -m " +:+ DQ +:+ "wt-checkpoint: " +:+ message +:+ DQ) wtPath ;;;
        ret tt)
       (fun _ => ret tt) ;;;
     let* newSha := exec "git rev-parse HEAD" wtPath in
     let* data := loadOrEmpty wtPath in
     let data := <["lastCheckpoint" := JStr newSha]> data in
     let data := <["checkpointBase" := JStr currentSha]> data in
     writeJson wtPath data ;;;
     ret newSha)
    (fun e => throw (SaveFailed e)).

(** [checkpointRestore]; returns the value of [restoredTo]. *)
Definition checkpointRestore (feature : string) : M Vcs (option jval) :=
  let wtPath := getWorktreeDir feature in
  let* ex := existsSync wtPath in
  if negb ex then throw (NotFound feature) else
  let* exm := existsMetadata wtPath in
  if negb exm then throw (NoCheckpoints feature) else
  let* data := tryCatch (readJson wtPath) (fun _ => throw (InvalidMetadata feature)) in
  if negb (truthy (data !! "checkpointBase")) then throw (NoRestorePoint feature) else
  tryCatch
    (exec ("git reset --hard " +:+ toString (data !! "checkpointBase")) wtPath ;;;
     let data := delete "lastCheckpoint" data in
     let data := delete "checkpointBase" data in
     writeJson wtPath data ;;;
     ret (data !! "checkpointBase"))
    (fun e => throw (RestoreFailed e)).

(** [status] *)
Definition status (feature : string) : M Vcs StatusReport :=
  let wtPath := getWorktreeDir feature in
  let* ex := existsSync wtPath in
  if negb ex then throw (NotFound feature) else
  tryCatch
    (let* output := exec STATUS_CMD wtPath in
     ret (parse (Js.splitLines output)))
    (fun e => throw (StatusFailed e)).

(** [out.split(/\r?\n/).map(b => b.replace('*', '').trim())] *)
Definition branchNames (out : string) : list string :=
  map (fun b => Js.trim (Js.replace "*" EmptyString b)) (Js.splitLines out).

(** The computation of [isMerged] in [gc]; the second listing is only
    run when the first does not name the branch. *)
Definition isMergedInto (base : string) (wt : WorktreeInfo) : M Vcs bool :=
  let* out := exec ("git branch --merged origin/" +:+ base) baseDir in
  let mergedBranches := branchNames out in
  if Js.arrayIncludes (branch wt) mergedBranches then ret true
  else
    let* out2 := exec ("git branch --merged " +:+ base) baseDir in
    ret (Js.arrayIncludes (branch wt) (branchNames out2)).

(** The body of the loop of [gc], with its [try]/[catch]. *)
Definition gcStep (base : string) (removed : list string) (wt : WorktreeInfo)
  : M Vcs (list string) :=
  tryCatch
    (let* isMerged := isMergedInto base wt in
     if isMerged && wtClean wt then
       let* lock := getLockStatus (path wt) in
       if negb (truthy lock) then
         exec (removeCmd (path wt)) baseDir ;;;
         exec (deleteCmd (branch wt)) baseDir ;;;
         ret (removed ++ [branch wt])
       else ret removed
     else ret removed)
    (fun _ => ret removed).

(** [gc]; returns [removed]. *)
Definition gc (base : string) : M Vcs (list string) :=
  let* worktrees := listWorktrees in
  tryCatch (exec (fetchCmd base) baseDir ;;; ret tt)
           (fun _ => ret tt) ;;;
  foldM (gcStep base) worktrees [].

(** One iteration of the loop of [portRequest] that collects the ports. *)
Definition collectStep (usedPorts : list jval) (wt : WorktreeInfo) : M Vcs (list jval) :=
  let* ex := existsMetadata (path wt) in
  if ex then
    tryCatch
      (let* d := readJson (path wt) in
       match d !! "port" with
       | Some v => if truthy (Some v) then ret (setAdd v usedPorts) else ret usedPorts
       | None => ret usedPorts
       end)
      (fun _ => ret usedPorts)
  else ret usedPorts.

(** [portRequest]; returns [port]. *)
Definition portRequest (feature : string) : M Vcs Z :=
  let wtPath := getWorktreeDir feature in
  let* ex := existsSync wtPath in
  if negb ex then throw (NotFound feature) else
  let* worktrees := listWorktrees in
  let* usedPorts := foldM collectStep worktrees [] in
  let assignedPort := firstFreePort usedPorts in
  if assignedPort =? -1 then throw RangeExhausted else
  let* data := loadOrEmpty wtPath in
  writeJson wtPath (<["port" := JNum assignedPort]> data) ;;;
  let* envContent := readEnvOrEmpty wtPath in
  writeEnv wtPath (upsertPort envContent assignedPort) ;;;
  ret assignedPort.

(** [portRelease] *)
Definition portRelease (feature : string) : M Vcs unit :=
  let wtPath := getWorktreeDir feature in
  let* ex := existsSync wtPath in
  if negb ex then throw (NotFound feature) else
  let* exm := existsMetadata wtPath in
  if exm then
    let* data := readJson wtPath in
    if truthy (data !! "port") then writeJson wtPath (delete "port" data)
    else ret tt
  else ret tt.

End GitService.

(* ===================================================================== *)
(** * Reading the state of a worktree *)
(* ===================================================================== *)

(** The lock owner recorded for directory [p]. *)
Definition lockOf (dk : gmap string Dir) (p : string) : option jval :=
  fieldOf dk p "lockedBy".

(** The world after [metadata.json] of [p] was set to [m]. *)
Definition putMeta {Vcs} (p : string) (m : option MetaFile) (w : World Vcs) : World Vcs :=
  mkWorld (vcs w) (alter (setMetadata m) p (disk w)).


(** The world after [.env.local] of [p] was set to [s]. *)
Definition putEnv {Vcs} (p : string) (s : string) (w : World Vcs) : World Vcs :=
  mkWorld (vcs w) (alter (setEnvLocal (Some s)) p (disk w)).

(** The world after port [n] was leased to directory [p]: the [port] field is
    set in its metadata document and the [PORT] line in its [.env.local]. *)
Definition leased {Vcs} (p : string) (n : Z) (w : World Vcs) : World Vcs :=
  putEnv p (upsertPort (default EmptyString (envOf (disk w) p)) n)
    (putMeta p (Some (Json (<["port" := JNum n]> (default ∅ (docOf (disk w) p))))) w).

(** The guard of [lockWorktree]: [currentLock && currentLock !== agentId]. *)
Definition lockedByOther (dk : gmap string Dir) (p agentId : string) : bool :=
  truthy (lockOf dk p) && strictNeqStr (lockOf dk p) agentId.

(** The path and branch of a listed worktree. *)
Definition keyOf (wt : WorktreeInfo) : string * string := (path wt, branch wt).

(** The entries that [listWorktrees] returns, read off the listing text alone:
    the loop of [listWorktrees] without the calls it makes for each entry. *)
Definition entriesStep (st : PartialWt * list (string * string)) (line : string)
  : PartialWt * list (string * string) :=
  if Js.startsWith "worktree " line then
    (nextPartial (fst st) line,
     snd st ++ match readyWt (fst st) with Some e => [e] | None => [] end)
  else (nextPartial (fst st) line, snd st).

Definition listedEntries (output : string) : list (string * string) :=
  let st := fold_left entriesStep (Js.splitLines output)
                      ({| p_path := None; p_branch := None |}, []) in
  snd st ++ match readyWt (fst st) with Some e => [e] | None => [] end.

Definition isQuery (cmd : string) : bool :=
  String.eqb cmd LIST_CMD || String.eqb cmd STATUS_CMD.

(** What [isClean] makes of the outcome of the status command. *)
Definition cleanOf (o : Outcome) : bool :=
  match o with
  | Exit0 out =>
      Nat.eqb (List.length (List.filter keepLine (Js.splitLines (Js.trim out)))) 0
  | Failed _ => false
  end.

(** One iteration of the collecting loop of [portRequest], on the disk. *)
Definition collectPure (dk : gmap string Dir) (used : list jval) (wt : WorktreeInfo)
  : list jval :=
  match fieldOf dk (path wt) "port" with
  | Some v => if truthy (Some v) then setAdd v used else used
  | None => used
  end.

(** The set [usedPorts] that [portRequest] collects over the listed worktrees. *)
Definition usedPortsOf (dk : gmap string Dir) (wts : list WorktreeInfo) : list jval :=
  fold_left (collectPure dk) wts [].

(** Port [n] is held: the metadata of a listed worktree records it. *)
Definition held (dk : gmap string Dir) (wts : list WorktreeInfo) (n : Z) : Prop :=
  exists wt, wt ∈ wts /\ fieldOf dk (path wt) "port" = Some (JNum n).

(** Directory [p] is in the listing. *)
Definition listed (wts : list WorktreeInfo) (p : string) : Prop :=
  exists wt, wt ∈ wts /\ path wt = p.

Section Runner.
Context {Vcs : Type}.
Variable run : string -> string -> World Vcs -> Outcome * World Vcs.
Variable baseDir : string.

(** [Ran ok w w']: [w'] is reached from [w] by running commands that
    satisfy [ok], in any working directories. *)
Inductive Ran (ok : string -> bool) : World Vcs -> World Vcs -> Prop :=
| Ran_refl w : Ran ok w w
| Ran_step w cmd cwd w' :
    ok cmd = true -> Ran ok (snd (run cmd cwd w)) w' -> Ran ok w w'.

(** The removal of [wt] succeeds in world [w]: the merge check answers that
    the branch is merged, the listing found the worktree clean, no lock
    owner is recorded when the check is done, and both the worktree removal
    and the branch deletion exit with success. *)
Definition removalSucceeds (base : string) (wt : WorktreeInfo) (w : World Vcs) : Prop :=
  exists w1 o1 w2 o2 w3,
    isMergedInto run baseDir base wt w = (Ok true, w1) /\
    wtClean wt = true /\
    truthy (lockOf (disk w1) (path wt)) = false /\
    exec run (removeCmd (path wt)) baseDir w1 = (Ok o1, w2) /\
    exec run (deleteCmd (branch wt)) baseDir w2 = (Ok o2, w3).

(** The world that the attempt on [wt] leaves. *)
Definition afterAttempt (base : string) (wt : WorktreeInfo) (w : World Vcs) : World Vcs :=
  snd (gcStep run baseDir base [] wt w).

(** The world after the fetch that opens [gc], whether it failed or not. *)
Definition afterFetch (base : string) (w : World Vcs) : World Vcs :=
  snd (run (fetchCmd base) baseDir w).

(** [gcRun base wts w removed]: going through [wts] from world [w], the
    branches of the worktrees whose removal succeeds are, in order,
    [removed]; the others are skipped. *)
Inductive gcRun (base : string) : list WorktreeInfo -> World Vcs -> list string -> Prop :=
| gcRun_nil w : gcRun base [] w []
| gcRun_removed wt wts w rs :
    removalSucceeds base wt w ->
    gcRun base wts (afterAttempt base wt w) rs ->
    gcRun base (wt :: wts) w (branch wt :: rs)
| gcRun_skipped wt wts w rs :
    ~ removalSucceeds base wt w ->
    gcRun base wts (afterAttempt base wt w) rs ->
    gcRun base (wt :: wts) w rs.

(** No command unlocks a directory, except the removal of that directory. *)
Definition keepsLocks : Prop :=
  forall cmd cwd w p,
    cmd <> removeCmd p ->
    truthy (lockOf (disk w) p) = true ->
    truthy (lockOf (disk (snd (run cmd cwd w))) p) = true.

(** The listing command always succeeds and names directory [p]. *)
Definition alwaysListed (p : string) : Prop :=
  forall w, exists out,
    fst (run LIST_CMD baseDir w) = Exit0 out /\
    p ∈ map fst (listedEntries (Js.trim out)).

(** Port requests for several features, one after the other. *)
Fixpoint requestAll (features : list string) : M Vcs (list Z) :=
  match features with
  | [] => ret []
  | f :: fs =>
      let* n := portRequest run baseDir f in
      let* ns := requestAll fs in
      ret (n :: ns)
  end.

End Runner.

(* ===================================================================== *)
(** * A small repository to run the service on *)
(* ===================================================================== *)

Module Demo.

Definition base : string := "/repo".

(** [getWorktreeDir] of features [feat/a] and [feat/b]. *)
Definition pathA : string := "/repo/.worktrees/feat-a".
Definition pathB : string := "/repo/.worktrees/feat-b".

(** The state of the fake version control system: the commands run so
    far, each with its working directory. *)
Definition Log : Type := list (string * string).

Definition logged (cmd cwd : string) (w : World Log) : World Log :=
  mkWorld (vcs w ++ [(cmd, cwd)]) (disk w).

(** A runner for which every command succeeds and prints nothing. *)
Definition quiet (cmd cwd : string) (w : World Log) : Outcome * World Log :=
  (Exit0 EmptyString, logged cmd cwd w).

Definition dirWith (m : option MetaFile) : Dir :=
  {| metadata := m; envLocal := None |}.

(** A document with a lock, a port lease, a context and a checkpoint. *)
Definition fullDoc : gmap string jval :=
  <["checkpointBase" := JStr "c0ffee"]>
  (<["lastCheckpoint" := JStr "decade"]>
  (<["context" := JStr "Goal: fix UI"]>
  (<["port" := JNum 8000]>
  (lockData "agentA" "2024-01-01T00:00:00.000Z")))).

(** Worktree [feat/a] exists and has no metadata file. *)
Definition fresh : World Log :=
  mkWorld [] (<[pathA := dirWith None]> ∅).

(** Worktree [feat/a] is locked by [agentA] and holds the full document. *)
Definition busy : World Log :=
  mkWorld [] (<[pathA := dirWith (Some (Json fullDoc))]> ∅).

(** Lines joined by line feeds. *)
Fixpoint unlines (lines : list string) : string :=
  match lines with
  | [] => EmptyString
  | [l] => l
  | l :: ls => l +:+ NL +:+ unlines ls
  end.

(** A porcelain listing: the main worktree and those of [feat/a] and
    [feat/b]. *)
Definition listing : string :=
  unlines [ "worktree /repo"; "HEAD 1111111"; "branch refs/heads/main"; EmptyString;
            "worktree /repo/.worktrees/feat-a"; "HEAD 2222222";
            "branch refs/heads/feat/a"; EmptyString;
            "worktree /repo/.worktrees/feat-b"; "HEAD 3333333";
            "branch refs/heads/feat/b"; EmptyString ].

(** The same repository while [feat/a] is in the middle of a rebase: its
    HEAD is detached and the listing has no branch line for it. *)
Definition listingDetached : string :=
  unlines [ "worktree /repo"; "HEAD 1111111"; "branch refs/heads/main"; EmptyString;
            "worktree /repo/.worktrees/feat-a"; "HEAD 2222222";
            "detached"; EmptyString;
            "worktree /repo/.worktrees/feat-b"; "HEAD 3333333";
            "branch refs/heads/feat/b"; EmptyString ].

(** A runner that prints [l] for the listing command and nothing for any
    other command, and never fails. *)
Definition gitWith (l : string) (cmd cwd : string) (w : World Log)
  : Outcome * World Log :=
  (Exit0 (if String.eqb cmd LIST_CMD then l else EmptyString), logged cmd cwd w).

Definition git := gitWith listing.
Definition gitDetached := gitWith listingDetached.

(** Worktrees [feat/a] and [feat/b] exist and have no metadata file. *)
Definition two : World Log :=
  mkWorld [] (<[pathB := dirWith None]> (<[pathA := dirWith None]> ∅)).


(** What the registry lists for [listing] when everything is clean and
    unlocked. *)
Definition wtsAB : list WorktreeInfo :=
  [ {| path := pathA; branch := "feat/a"; wtClean := true; lockedBy := None |};
    {| path := pathB; branch := "feat/b"; wtClean := true; lockedBy := None |} ].

(** A runner for [gc]: the fetch fails (no remote), both feature branches
    are reported merged into [origin/main], and removing the worktree of
    [feat/a] deletes its directory. *)
Definition mergedListing : string := unlines ["  feat/a"; "  feat/b"; "* main"].

Definition gitGc (cmd cwd : string) (w : World Log) : Outcome * World Log :=
  let w' := logged cmd cwd w in
  if String.eqb cmd LIST_CMD then (Exit0 listing, w')
  else if String.eqb cmd "git fetch origin main" then
    (Failed "fatal: 'origin' does not appear to be a git repository", w')
  else if String.eqb cmd "git branch --merged origin/main" then (Exit0 mergedListing, w')
  else if String.eqb cmd ("git worktree remove " +:+ pathA) then
    (Exit0 EmptyString, mkWorld (vcs w') (delete pathA (disk w')))
  else (Exit0 EmptyString, w').

(** Worktree [feat/a] is unlocked, worktree [feat/b] is locked by [agentB]. *)
Definition gcWorld : World Log :=
  mkWorld [] (<[pathB := dirWith (Some (Json (lockData "agentB" "2024-01-01T00:00:00.000Z")))]>
             (<[pathA := dirWith None]> ∅)).

Definition wtsGc : list WorktreeInfo :=
  [ {| path := pathA; branch := "feat/a"; wtClean := true; lockedBy := None |};
    {| path := pathB; branch := "feat/b"; wtClean := true;
       lockedBy := Some (JStr "agentB") |} ].

(** Worktree [feat/a] has a metadata file that does not parse. *)
Definition broken : World Log :=
  mkWorld [] (<[pathA := dirWith (Some Corrupt)]> ∅).

End Demo.

(* ===================================================================== *)
(** * The merged-branch list as git prints it *)
(* ===================================================================== *)

(** This definition follows the words of the specification, not the code:
    a branch is merged when it is contained in the merged-branch list. A
    line of the list that git prints is a marker ([*] for the current
    branch, [+] for a branch checked out in a linked worktree, a blank
    otherwise), a blank, and the name of the branch.
    [namesBranch b line]: the line names branch [b]. *)
Definition namesBranch (b line : string) : bool :=
  String.eqb line ("  " +:+ b) || String.eqb line ("* " +:+ b) ||
  String.eqb line ("+ " +:+ b).

(** Branch [b] is contained in the merged-branch list [out]. *)
Definition inMergedList (out b : string) : bool :=
  existsb (namesBranch b) (Js.splitLines out).

Module DemoWt.

(** What [git branch --merged] prints in the demo repository once both
    feature branches are merged: each is checked out in its linked
    worktree, [main] is the current branch. *)
Definition mergedListing : string := Demo.unlines ["+ feat/a"; "+ feat/b"; "* main"].

(** The same list without the markers of linked worktrees. *)
Definition unmarkedListing : string := Demo.unlines ["  feat/a"; "  feat/b"; "* main"].

(** A runner for which every command succeeds: the registry lists both
    feature worktrees, both merge checks print [merged], and the removal of
    a worktree deletes its directory. *)
Definition gitWith (merged : string) (cmd cwd : string) (w : World Demo.Log)
  : Outcome * World Demo.Log :=
  let w' := Demo.logged cmd cwd w in
  if String.eqb cmd LIST_CMD then (Exit0 Demo.listing, w')
  else if String.eqb cmd "git branch --merged origin/main"
          || String.eqb cmd "git branch --merged main" then (Exit0 merged, w')
  else if String.eqb cmd (removeCmd Demo.pathA) then
    (Exit0 EmptyString, mkWorld (vcs w') (delete Demo.pathA (disk w')))
  else if String.eqb cmd (removeCmd Demo.pathB) then
    (Exit0 EmptyString, mkWorld (vcs w') (delete Demo.pathB (disk w')))
  else (Exit0 EmptyString, w').

Definition git := gitWith mergedListing.

End DemoWt.
(* ===================================================================== *)
(** * Properties of the conflict status parser *)
(* ===================================================================== *)

Section ParserFacts.

Lemma isConflictCode_codes code :
  isConflictCode code = Js.arrayIncludes code conflictCodes.
Proof.
  unfold isConflictCode, Js.arrayIncludes, conflictCodes. simpl.
  rewrite orb_false_r. rewrite !orb_assoc. reflexivity.
Qed.

(** Where [classifyLine] puts a line is the bucket of its code. *)
Lemma classifyLine_bucket b line :
  classifyLine b line =
  match bucketOfCode (codeOf line) with
  | Some Conflict =>
      Build_Buckets (b_conflicts b ++ [fileOf line]) (b_modified b) (b_added b) (b_deleted b)
  | Some Modified =>
      Build_Buckets (b_conflicts b) (b_modified b ++ [fileOf line]) (b_added b) (b_deleted b)
  | Some Added =>
      Build_Buckets (b_conflicts b) (b_modified b) (b_added b ++ [fileOf line]) (b_deleted b)
  | Some Deleted =>
      Build_Buckets (b_conflicts b) (b_modified b) (b_added b) (b_deleted b ++ [fileOf line])
  | None => b
  end.
Proof.
  unfold classifyLine, bucketOfCode. rewrite isConflictCode_codes.
  destruct (Js.arrayIncludes _ _); [reflexivity|].
  destruct (Js.includes "M" _); [reflexivity|].
  destruct (Js.includes "A" _ || _); [reflexivity|].
  destruct (Js.includes "D" _); reflexivity.
Qed.

Lemma filesIn_cons k line lines :
  filesIn k (line :: lines) =
  (if inBucket k line then [fileOf line] else []) ++ filesIn k lines.
Proof. unfold filesIn. simpl. destruct (inBucket k line); reflexivity. Qed.

(** The loop of pushes, from any starting buckets. *)
Lemma fold_classify lines : forall b,
  fold_left classifyLine lines b =
  Build_Buckets (b_conflicts b ++ filesIn Conflict lines)
                (b_modified b ++ filesIn Modified lines)
                (b_added b ++ filesIn Added lines)
                (b_deleted b ++ filesIn Deleted lines).
Proof.
  induction lines as [|line lines IH]; intros b.
  - simpl. unfold filesIn. simpl. rewrite !app_nil_r. destruct b; reflexivity.
  - simpl fold_left. rewrite IH, classifyLine_bucket, !filesIn_cons.
    unfold inBucket.
    destruct (bucketOfCode (codeOf line)) as [[]|]; simpl;
      rewrite <- ?app_assoc; reflexivity.
Qed.

Lemma parse_lists raw :
  conflicts (parse raw) = filesIn Conflict (List.filter keepLine raw) /\
  modified (parse raw) = filesIn Modified (List.filter keepLine raw) /\
  added (parse raw) = filesIn Added (List.filter keepLine raw) /\
  deleted (parse raw) = filesIn Deleted (List.filter keepLine raw).
Proof. unfold parse. simpl. rewrite fold_classify. simpl. auto. Qed.

Lemma parse_isClean raw :
  isClean (parse raw) = true <-> List.filter keepLine raw = [].
Proof.
  unfold parse. simpl. destruct (List.filter keepLine raw); simpl; split; congruence.
Qed.

End ParserFacts.

(** C9: every kept status entry goes to the bucket that the priority order
    (conflict codes, then a code containing M, then a code containing A or
    equal to ??, then a code containing D) gives its two-character code, with
    the path after the separator, in input order; an entry whose code has no
    bucket goes nowhere.  The three lines of the specification's example
    yield the stated result. *)
Theorem parse_classifies_by_priority (raw : list string) :
  let lines := List.filter keepLine raw in
  (conflicts (parse raw) = filesIn Conflict lines /\
   modified (parse raw) = filesIn Modified lines /\
   added (parse raw) = filesIn Added lines /\
   deleted (parse raw) = filesIn Deleted lines) /\
  (forall code,
     bucketOfCode code =
     if bool_decide (code ∈ conflictCodes) then Some Conflict
     else if Js.includes "M" code then Some Modified
     else if Js.includes "A" code || bool_decide (code = "??") then Some Added
     else if Js.includes "D" code then Some Deleted
     else None) /\
  parse ["UU file.txt"; " M other.txt"; "?? new.txt"] =
    {| isClean := false; conflicts := ["file.txt"]; modified := ["other.txt"];
       added := ["new.txt"]; deleted := [] |}.
Proof.
  intros lines. split; [apply parse_lists|]. split; [|reflexivity].
  intros code. unfold bucketOfCode.
  assert (Hc : Js.arrayIncludes code conflictCodes = bool_decide (code ∈ conflictCodes)).
  { unfold Js.arrayIncludes. apply eq_true_iff_eq.
    rewrite existsb_exists, bool_decide_eq_true. split.
    - intros (x & Hin & Heq). apply String.eqb_eq in Heq. subst.
      by apply list_elem_of_In.
    - intros Hin. exists code. split; [by apply list_elem_of_In|apply String.eqb_refl]. }
  assert (Hq : String.eqb code "??" = bool_decide (code = "??")).
  { apply eq_true_iff_eq. rewrite String.eqb_eq, bool_decide_eq_true. tauto. }
  rewrite Hc, Hq. reflexivity.
Qed.

(** C4, as stated, fails: a rename entry is kept, so the flag is false, but it
    lands in none of the four lists. *)
Lemma parse_flag_not_iff_lists_empty :
  ~ (forall raw : list string,
       isClean (parse raw) = true <->
       (conflicts (parse raw) = [] /\ modified (parse raw) = [] /\
        added (parse raw) = [] /\ deleted (parse raw) = [])).
Proof.
  intros H. specialize (H ["R  old.txt -> new.txt"]).
  destruct H as [_ H]. discriminate H. repeat split; reflexivity.
Qed.

(** C4, amended: the flag is true exactly when no status entry is kept (the
    filtered list of lines is empty); a true flag implies four empty lists, and
    the flag and the emptiness of the four lists agree whenever every kept
    entry has a bucket. *)
Theorem parse_flag_iff_no_entry (raw : list string) :
  (isClean (parse raw) = true <-> List.filter keepLine raw = []) /\
  (isClean (parse raw) = true ->
     conflicts (parse raw) = [] /\ modified (parse raw) = [] /\
     added (parse raw) = [] /\ deleted (parse raw) = []) /\
  ((forall line, In line (List.filter keepLine raw) ->
      bucketOfCode (codeOf line) <> None) ->
   conflicts (parse raw) = [] /\ modified (parse raw) = [] /\
   added (parse raw) = [] /\ deleted (parse raw) = [] ->
   isClean (parse raw) = true).
Proof.
  split; [apply parse_isClean|]. split.
  - intros H. apply parse_isClean in H.
    destruct (parse_lists raw) as (-> & -> & -> & ->). rewrite H. auto.
  - intros Hall (Hc & Hm & Ha & Hd). apply parse_isClean.
    destruct (parse_lists raw) as (Ec & Em & Ea & Ed).
    rewrite Ec in Hc. rewrite Em in Hm. rewrite Ea in Ha. rewrite Ed in Hd.
    destruct (List.filter keepLine raw) as [|line rest]; [reflexivity|].
    exfalso. specialize (Hall line (or_introl eq_refl)).
    rewrite filesIn_cons in Hc, Hm, Ha, Hd. unfold inBucket in *.
    destruct (bucketOfCode (codeOf line)) as [[]|]; simpl in *; congruence.
Qed.

(* ===================================================================== *)
(** * How the primitives run *)
(* ===================================================================== *)

Section RunLemmas.
Context {Vcs : Type}.
Implicit Types (w : World Vcs) (p : string).

Lemma existsSync_Some p w dir :
  disk w !! p = Some dir -> existsSync p w = (Ok true, w).
Proof.
  intros H. unfold existsSync. rewrite H.
  rewrite bool_decide_eq_true_2 by eauto. reflexivity.
Qed.

Lemma existsSync_None p w :
  disk w !! p = None -> existsSync p w = (Ok false, w).
Proof.
  intros H. unfold existsSync. rewrite H.
  rewrite bool_decide_eq_false_2; [reflexivity|]. intros [x Hx]. discriminate.
Qed.

Lemma existsMetadata_run p w :
  existsMetadata p w =
  (Ok (match metaOf (disk w) p with Some _ => true | None => false end), w).
Proof.
  unfold existsMetadata. destruct (metaOf (disk w) p).
  - rewrite bool_decide_eq_true_2 by eauto. reflexivity.
  - rewrite bool_decide_eq_false_2; [reflexivity|]. intros [x Hx]. discriminate.
Qed.

(** [getLockStatus] never throws and does not change the world. *)
Lemma getLockStatus_run p w :
  getLockStatus p w = (Ok (lockOf (disk w) p), w).
Proof.
  unfold getLockStatus, bind. rewrite existsMetadata_run.
  unfold lockOf, fieldOf, docOf.
  destruct (metaOf (disk w) p) as [[|d]|] eqn:E; [| |reflexivity];
    unfold tryCatch, bind, readJson, ret; rewrite E; reflexivity.
Qed.

Lemma loadOrEmpty_run p w :
  metaOf (disk w) p <> Some Corrupt ->
  loadOrEmpty p w = (Ok (default ∅ (docOf (disk w) p)), w).
Proof.
  intros H. unfold loadOrEmpty, bind. rewrite existsMetadata_run.
  unfold docOf.
  destruct (metaOf (disk w) p) as [[|d]|] eqn:E; [congruence| |reflexivity].
  unfold readJson. rewrite E. reflexivity.
Qed.

Lemma loadOrEmpty_corrupt p w :
  metaOf (disk w) p = Some Corrupt ->
  loadOrEmpty p w = (Throw SyntaxError, w).
Proof.
  intros H. unfold loadOrEmpty, bind. rewrite existsMetadata_run, H.
  unfold readJson. rewrite H. reflexivity.
Qed.

Lemma writeJson_run p d w dir :
  disk w !! p = Some dir ->
  writeJson p d w = (Ok tt, putMeta p (Some (Json d)) w).
Proof.
  intros H. unfold writeJson, putMeta. rewrite H. do 2 f_equal.
  apply map_eq. intros q. destruct (decide (p = q)) as [->|Hne].
  - rewrite lookup_insert_eq, lookup_alter_eq, H. reflexivity.
  - rewrite lookup_insert_ne, lookup_alter_ne by done. reflexivity.
Qed.

Lemma metaOf_putMeta p m w q :
  metaOf (disk (putMeta p m w)) q =
  if decide (p = q)
  then match disk w !! p with Some _ => m | None => None end
  else metaOf (disk w) q.
Proof.
  unfold metaOf, putMeta. simpl. destruct (decide (p = q)) as [->|Hne].
  - rewrite lookup_alter_eq. destruct (disk w !! q); reflexivity.
  - rewrite lookup_alter_ne by done. reflexivity.
Qed.

Lemma docOf_putMeta_eq p d w dir :
  disk w !! p = Some dir -> docOf (disk (putMeta p (Some (Json d)) w)) p = Some d.
Proof.
  intros H. unfold docOf. rewrite metaOf_putMeta, decide_True by done.
  rewrite H. reflexivity.
Qed.

Lemma docOf_putMeta_ne p m w q :
  p <> q -> docOf (disk (putMeta p m w)) q = docOf (disk w) q.
Proof.
  intros H. unfold docOf. rewrite metaOf_putMeta, decide_False by done. reflexivity.
Qed.

Lemma disk_putMeta_ne p m w q :
  p <> q -> disk (putMeta p m w) !! q = disk w !! q.
Proof. intros H. unfold putMeta. simpl. by rewrite lookup_alter_ne. Qed.

Lemma disk_putMeta_is_Some p m w q :
  is_Some (disk (putMeta p m w) !! q) <-> is_Some (disk w !! q).
Proof.
  unfold putMeta. simpl. destruct (decide (p = q)) as [->|Hne].
  - rewrite lookup_alter_eq. destruct (disk w !! q); simpl; split; intros [x Hx]; eauto; discriminate.
  - by rewrite lookup_alter_ne.
Qed.

End RunLemmas.

(* ===================================================================== *)
(** * Lock manager *)
(* ===================================================================== *)

Section LockFacts.
Context {Vcs : Type}.
Variable baseDir : string.
Implicit Types (w : World Vcs) (feature agentId now : string).

Lemma unlinkMetadata_run p w dir m :
  disk w !! p = Some dir -> metadata dir = Some m ->
  unlinkMetadata p w = (Ok tt, putMeta p None w).
Proof.
  intros H Hm. unfold unlinkMetadata, putMeta. rewrite H, Hm. do 2 f_equal.
  apply map_eq. intros q. destruct (decide (p = q)) as [->|Hne].
  - rewrite lookup_insert_eq, lookup_alter_eq, H. reflexivity.
  - rewrite lookup_insert_ne, lookup_alter_ne by done. reflexivity.
Qed.

Lemma lockWorktree_absent feature agentId now w :
  disk w !! getWorktreeDir baseDir feature = None ->
  lockWorktree baseDir feature agentId now w = (Throw (NotFound feature), w).
Proof.
  intros H. unfold lockWorktree, bind. rewrite (existsSync_None _ _ H). reflexivity.
Qed.

(** The two outcomes of [lockWorktree] on an existing worktree. *)
Lemma lockWorktree_run feature agentId now w :
  let p := getWorktreeDir baseDir feature in
  is_Some (disk w !! p) ->
  lockWorktree baseDir feature agentId now w =
  if lockedByOther (disk w) p agentId
  then (Throw (LockConflict (lockOf (disk w) p)), w)
  else (Ok tt, putMeta p (Some (Json (lockData agentId now))) w).
Proof.
  intros p [dir H]. unfold lockWorktree, bind. fold p.
  rewrite (existsSync_Some _ _ _ H). cbn [negb].
  rewrite getLockStatus_run. unfold lockedByOther.
  destruct (truthy _ && _); [reflexivity|]. apply (writeJson_run _ _ _ _ H).
Qed.

Lemma lockData_lookup agentId now k :
  lockData agentId now !! k =
  if decide (k = "timestamp") then Some (JStr now)
  else if decide (k = "lockedBy") then Some (JStr agentId) else None.
Proof.
  unfold lockData. repeat case_decide; subst; simplify_map_eq; reflexivity.
Qed.

Lemma lockOf_after_lock feature agentId now w :
  let p := getWorktreeDir baseDir feature in
  is_Some (disk w !! p) ->
  lockOf (disk (putMeta p (Some (Json (lockData agentId now))) w)) p = Some (JStr agentId).
Proof.
  intros p [dir H]. unfold lockOf, fieldOf.
  rewrite (docOf_putMeta_eq _ _ _ _ H). rewrite lockData_lookup. reflexivity.
Qed.

Lemma handoff_run feature agentId now w :
  let p := getWorktreeDir baseDir feature in
  is_Some (disk w !! p) ->
  metaOf (disk w) p <> Some Corrupt ->
  handoff baseDir feature agentId now w =
  (Ok tt, putMeta p (Some (Json (<["timestamp" := JStr now]>
                                 (<["lockedBy" := JStr agentId]>
                                  (default ∅ (docOf (disk w) p)))))) w).
Proof.
  intros p [dir H] Hc. unfold handoff, bind. fold p.
  rewrite (existsSync_Some _ _ _ H). cbn [negb].
  rewrite (loadOrEmpty_run _ _ Hc). apply (writeJson_run _ _ _ _ H).
Qed.

Lemma handoff_outcomes feature agentId now w :
  (exists w', handoff baseDir feature agentId now w = (Ok tt, w')) \/
  handoff baseDir feature agentId now w = (Throw (NotFound feature), w) \/
  handoff baseDir feature agentId now w = (Throw SyntaxError, w).
Proof.
  destruct (disk w !! getWorktreeDir baseDir feature) as [dir|] eqn:H.
  - assert (Hdec : metaOf (disk w) (getWorktreeDir baseDir feature) = Some Corrupt \/
                   metaOf (disk w) (getWorktreeDir baseDir feature) <> Some Corrupt).
    { destruct (metaOf _ _) as [[|d]|]; [left; reflexivity|right; congruence..]. }
    destruct Hdec as [Hc|Hc].
    + right; right. unfold handoff, bind. rewrite (existsSync_Some _ _ _ H). cbn [negb].
      rewrite (loadOrEmpty_corrupt _ _ Hc). reflexivity.
    + left. eexists. apply handoff_run; eauto.
  - right; left. unfold handoff, bind. rewrite (existsSync_None _ _ H). reflexivity.
Qed.

Lemma unlockWorktree_run feature agentId force w :
  let p := getWorktreeDir baseDir feature in
  is_Some (disk w !! p) ->
  truthy (lockOf (disk w) p) = true ->
  strictNeqStr (lockOf (disk w) p) agentId && negb force = false ->
  unlockWorktree baseDir feature agentId force w = (Ok tt, putMeta p None w).
Proof.
  intros p [dir H] Ht Hs. unfold unlockWorktree, bind. fold p.
  rewrite (existsSync_Some _ _ _ H). cbn [negb].
  rewrite getLockStatus_run, Ht. cbn [negb]. rewrite Hs.
  rewrite existsMetadata_run.
  unfold lockOf, fieldOf, docOf, metaOf in *. rewrite H in *.
  destruct (metadata dir) as [m|] eqn:Hm; [|discriminate].
  apply (unlinkMetadata_run _ _ _ _ H Hm).
Qed.

End LockFacts.

Section LockClaims.
Context {Vcs : Type}.
Variable baseDir : string.
Implicit Types (w : World Vcs) (feature agentId now : string).

Lemma lockWorktree_Ok_inv feature agentId now w w1 :
  let p := getWorktreeDir baseDir feature in
  lockWorktree baseDir feature agentId now w = (Ok tt, w1) ->
  is_Some (disk w !! p) /\
  lockedByOther (disk w) p agentId = false /\
  w1 = putMeta p (Some (Json (lockData agentId now))) w.
Proof.
  intros p Hrun. destruct (disk w !! p) as [dir|] eqn:H.
  - assert (Hs : is_Some (disk w !! p)) by eauto.
    rewrite (lockWorktree_run baseDir feature agentId now w Hs) in Hrun. fold p in Hrun.
    destruct (lockedByOther (disk w) p agentId); [discriminate|].
    inversion Hrun. auto.
  - rewrite (lockWorktree_absent baseDir _ _ _ _ H) in Hrun. discriminate.
Qed.

Lemma is_empty_false s : s <> EmptyString -> Js.is_empty s = false.
Proof. destruct s; [congruence|reflexivity]. Qed.

(** C3: on an existing worktree that no other agent holds, [lockWorktree]
    succeeds and leaves a metadata document made of exactly [lockedBy] and
    [timestamp]; whatever [port], [context], [lastCheckpoint] or
    [checkpointBase] the document held before is gone. *)
Theorem lock_erases_other_fields feature agentId now w :
  let p := getWorktreeDir baseDir feature in
  is_Some (disk w !! p) ->
  lockedByOther (disk w) p agentId = false ->
  exists w',
    lockWorktree baseDir feature agentId now w = (Ok tt, w') /\
    docOf (disk w') p = Some (lockData agentId now) /\
    (forall k, fieldOf (disk w') p k =
               if decide (k = "timestamp") then Some (JStr now)
               else if decide (k = "lockedBy") then Some (JStr agentId)
               else None) /\
    fieldOf (disk w') p "port" = None /\
    fieldOf (disk w') p "context" = None /\
    fieldOf (disk w') p "lastCheckpoint" = None /\
    fieldOf (disk w') p "checkpointBase" = None.
Proof.
  intros p Hs Hfree. eexists. split.
  { rewrite (lockWorktree_run baseDir feature agentId now w Hs). fold p.
    rewrite Hfree. reflexivity. }
  destruct Hs as [dir H].
  assert (Hdoc : docOf (disk (putMeta p (Some (Json (lockData agentId now))) w)) p
                 = Some (lockData agentId now)) by apply (docOf_putMeta_eq _ _ _ _ H).
  split; [exact Hdoc|].
  assert (Hall : forall k,
    fieldOf (disk (putMeta p (Some (Json (lockData agentId now))) w)) p k =
    if decide (k = "timestamp") then Some (JStr now)
    else if decide (k = "lockedBy") then Some (JStr agentId) else None).
  { intros k. unfold fieldOf. rewrite Hdoc. apply lockData_lookup. }
  split; [exact Hall|].
  repeat split; rewrite Hall; reflexivity.
Qed.

(** C7, amended: [lockWorktree] throws the not-found error when the worktree
    directory is missing; after a successful lock by a non-empty agent [A],
    a lock attempt by another agent [B] throws the lock conflict naming [A]
    and leaves the world as it was, still locked by [A]; and a repeated lock
    by the owner succeeds and keeps the owner. *)
Theorem lock_refuses_other_owner feature A B now now' w :
  let p := getWorktreeDir baseDir feature in
  (disk w !! p = None ->
   lockWorktree baseDir feature A now w = (Throw (NotFound feature), w)) /\
  (forall w1,
     lockWorktree baseDir feature A now w = (Ok tt, w1) ->
     (A <> B -> A <> EmptyString ->
      lockWorktree baseDir feature B now' w1 = (Throw (LockConflict (Some (JStr A))), w1) /\
      lockOf (disk w1) p = Some (JStr A)) /\
     (exists w2,
        lockWorktree baseDir feature A now' w1 = (Ok tt, w2) /\
        lockOf (disk w2) p = Some (JStr A))).
Proof.
  intros p. split; [apply lockWorktree_absent|].
  intros w1 Hrun. apply lockWorktree_Ok_inv in Hrun. fold p in Hrun.
  destruct Hrun as (Hs & Hfree & ->).
  set (w1 := putMeta p (Some (Json (lockData A now))) w).
  assert (Hs1 : is_Some (disk w1 !! p)) by (apply disk_putMeta_is_Some; exact Hs).
  assert (Hlock : lockOf (disk w1) p = Some (JStr A))
    by apply (lockOf_after_lock baseDir feature A now w Hs).
  split.
  - intros Hne Hne0. split; [|exact Hlock].
    rewrite (lockWorktree_run baseDir feature B now' w1 Hs1). fold p.
    unfold lockedByOther. rewrite Hlock. simpl.
    rewrite (is_empty_false _ Hne0). apply String.eqb_neq in Hne. rewrite Hne.
    reflexivity.
  - eexists. split.
    + rewrite (lockWorktree_run baseDir feature A now' w1 Hs1). fold p.
      unfold lockedByOther. rewrite Hlock. simpl. rewrite String.eqb_refl.
      rewrite andb_false_r. reflexivity.
    + apply (lockOf_after_lock baseDir feature A now' w1 Hs1).
Qed.

(** C8: on an existing worktree whose metadata file is missing or parses,
    [handoff] succeeds whoever holds the lock, sets [lockedBy] to the new
    agent and [timestamp] to the current instant and keeps every other
    field; and on no world at all does it throw the lock conflict. *)
Theorem handoff_overrides_any_owner feature toAgentId now w :
  let p := getWorktreeDir baseDir feature in
  (is_Some (disk w !! p) ->
   metaOf (disk w) p <> Some Corrupt ->
   exists w',
     handoff baseDir feature toAgentId now w = (Ok tt, w') /\
     fieldOf (disk w') p "lockedBy" = Some (JStr toAgentId) /\
     fieldOf (disk w') p "timestamp" = Some (JStr now) /\
     (forall k, k <> "lockedBy" -> k <> "timestamp" ->
                fieldOf (disk w') p k = fieldOf (disk w) p k)) /\
  (forall owner w', handoff baseDir feature toAgentId now w <> (Throw (LockConflict owner), w')).
Proof.
  intros p. split.
  - intros Hs Hc. eexists. split; [apply (handoff_run baseDir feature toAgentId now w Hs Hc)|].
    fold p. destruct Hs as [dir H]. unfold fieldOf at 1 2 3.
    rewrite (docOf_putMeta_eq _ _ _ _ H).
    split; [|split].
    + rewrite lookup_insert_ne by done. apply lookup_insert_eq.
    + apply lookup_insert_eq.
    + intros k Hk1 Hk2. rewrite !lookup_insert_ne by done.
      unfold fieldOf. destruct (docOf (disk w) p); reflexivity.
  - intros owner w' Habs.
    destruct (handoff_outcomes baseDir feature toAgentId now w) as [[w2 H]|[H|H]];
      rewrite H in Habs; discriminate.
Qed.

End LockClaims.


(* ===================================================================== *)
(** * Checkpoint manager *)
(* ===================================================================== *)

Section CheckpointFacts.
Context {Vcs : Type}.
Variable run : string -> string -> World Vcs -> Outcome * World Vcs.
Variable baseDir : string.
Implicit Types (w : World Vcs) (feature : string).

Lemma exec_ok cmd cwd w out w1 :
  run cmd cwd w = (Exit0 out, w1) -> exec run cmd cwd w = (Ok (Js.trim out), w1).
Proof. intros H. unfold exec. rewrite H. reflexivity. Qed.

Lemma exec_failed cmd cwd w msg w1 :
  run cmd cwd w = (Failed msg, w1) -> exec run cmd cwd w = (Throw (CommandFailure msg), w1).
Proof. intros H. unfold exec. rewrite H. reflexivity. Qed.

Lemma docOf_metaOf dk p d : docOf dk p = Some d -> metaOf dk p = Some (Json d).
Proof. unfold docOf. destruct (metaOf dk p) as [[|d']|]; congruence. Qed.

(** What [checkpointRestore] does when the reset command succeeds: the
    document loses both checkpoint fields, and the value returned is read
    from the document after [checkpointBase] was deleted from it. *)
Lemma checkpointRestore_run feature w d out w1 :
  let p := getWorktreeDir baseDir feature in
  is_Some (disk w !! p) ->
  docOf (disk w) p = Some d ->
  truthy (d !! "checkpointBase") = true ->
  run ("git reset --hard " +:+ toString (d !! "checkpointBase")) p w = (Exit0 out, w1) ->
  is_Some (disk w1 !! p) ->
  checkpointRestore run baseDir feature w =
  (Ok None,
   putMeta p (Some (Json (delete "checkpointBase" (delete "lastCheckpoint" d)))) w1).
Proof.
  intros p [dir H] Hd Ht Hrun [dir1 H1]. unfold checkpointRestore, bind. fold p.
  rewrite (existsSync_Some _ _ _ H). cbn [negb].
  rewrite existsMetadata_run. pose proof (docOf_metaOf _ _ _ Hd) as Hm.
  rewrite Hm. cbn [negb]. unfold tryCatch at 1. unfold readJson. rewrite Hm.
  rewrite Ht. cbn [negb]. unfold tryCatch, bind.
  rewrite (exec_ok _ _ _ _ _ Hrun). rewrite (writeJson_run _ _ _ _ H1).
  unfold ret. rewrite lookup_delete_eq. reflexivity.
Qed.

End CheckpointFacts.

(* ===================================================================== *)
(** * Worktree registry *)
(* ===================================================================== *)

Section RegistryFacts.
Context {Vcs : Type}.
Variable run : string -> string -> World Vcs -> Outcome * World Vcs.
Variable baseDir : string.
Implicit Types (w : World Vcs).

Lemma Ran_trans ok w1 w2 w3 :
  Ran run ok w1 w2 -> Ran run ok w2 w3 -> Ran run ok w1 w3.
Proof.
  induction 1 as [|w cmd cwd w' Hok _ IH]; [auto|].
  intros H. eapply Ran_step; eauto.
Qed.

Lemma Ran_one ok cmd cwd w :
  ok cmd = true -> Ran run ok w (snd (run cmd cwd w)).
Proof. intros H. eapply Ran_step; [exact H|apply Ran_refl]. Qed.

(** Commands that leave the directories alone do so along a whole run. *)
Lemma Ran_disk ok w w' :
  (forall cmd cwd w0, ok cmd = true -> disk (snd (run cmd cwd w0)) = disk w0) ->
  Ran run ok w w' -> disk w' = disk w.
Proof.
  intros Hro. induction 1 as [|w cmd cwd w' Hok _ IH]; [reflexivity|].
  rewrite IH. apply Hro, Hok.
Qed.

(** [isClean] never throws. *)
Lemma isCleanAt_run p w :
  isCleanAt run p w =
  (Ok (cleanOf (fst (run STATUS_CMD p w))), snd (run STATUS_CMD p w)).
Proof.
  unfold isCleanAt, tryCatch, bind, exec.
  destruct (run STATUS_CMD p w) as [[out|msg] w']; reflexivity.
Qed.

Lemma flushWt_run cur wts w :
  flushWt run cur wts w =
  match readyWt cur with
  | Some (p, b) =>
      let w' := snd (run STATUS_CMD p w) in
      (Ok (wts ++ [{| path := p; branch := b;
                      wtClean := cleanOf (fst (run STATUS_CMD p w));
                      lockedBy := lockOf (disk w') p |}]), w')
  | None => (Ok wts, w)
  end.
Proof.
  unfold flushWt. destruct (readyWt cur) as [[p b]|]; [|reflexivity].
  unfold bind. rewrite isCleanAt_run, getLockStatus_run. reflexivity.
Qed.

Lemma flushWt_shape cur wts w :
  exists wts' w',
    flushWt run cur wts w = (Ok wts', w') /\
    map keyOf wts' =
      map keyOf wts ++ match readyWt cur with Some e => [e] | None => [] end /\
    Ran run isQuery w w'.
Proof.
  rewrite flushWt_run. destruct (readyWt cur) as [[p b]|].
  - do 2 eexists. split; [reflexivity|]. split.
    + rewrite map_app. reflexivity.
    + apply Ran_one. reflexivity.
  - exists wts, w. split; [reflexivity|]. split; [by rewrite app_nil_r|apply Ran_refl].
Qed.

(** The loop of [listWorktrees] never throws; what it collects is what
    [entriesStep] reads off the lines. *)
Lemma foldM_listStep_shape lines : forall cur wts w,
  exists cur' wts' w',
    foldM (listStep run) lines (cur, wts) w = (Ok (cur', wts'), w') /\
    (cur', map keyOf wts') = fold_left entriesStep lines (cur, map keyOf wts) /\
    Ran run isQuery w w'.
Proof.
  induction lines as [|line lines IH]; intros cur wts w.
  - exists cur, wts, w. repeat split. apply Ran_refl.
  - cbn [foldM fold_left]. unfold bind at 1. unfold listStep at 1, entriesStep at 2.
    cbn [fst snd].
    destruct (Js.startsWith "worktree " line).
    + unfold bind at 1.
      destruct (flushWt_shape cur wts w) as (wts1 & w1 & -> & Hk & Hr1).
      cbn [ret].
      destruct (IH (nextPartial cur line) wts1 w1) as (cur' & wts' & w' & -> & Hf & Hr2).
      exists cur', wts', w'. split; [reflexivity|]. split.
      * rewrite Hf, Hk. reflexivity.
      * eapply Ran_trans; eauto.
    + cbn [ret].
      destruct (IH (nextPartial cur line) wts w) as (cur' & wts' & w' & -> & Hf & Hr2).
      exists cur', wts', w'. auto.
Qed.

(** When the listing command succeeds, [listWorktrees] returns, and its
    entries are those of the listing text. *)
Lemma listWorktrees_shape w out w0 :
  run LIST_CMD baseDir w = (Exit0 out, w0) ->
  exists wts w1,
    listWorktrees run baseDir w = (Ok wts, w1) /\
    map keyOf wts = listedEntries (Js.trim out) /\
    Ran run isQuery w w1.
Proof.
  intros Hrun. unfold listWorktrees, bind, exec. rewrite Hrun.
  destruct (foldM_listStep_shape (Js.splitLines (Js.trim out))
              {| p_path := None; p_branch := None |} [] w0)
    as (cur' & wts' & w' & -> & Hf & Hr).
  cbn [fst snd].
  destruct (flushWt_shape cur' wts' w') as (wts1 & w1 & -> & Hk & Hr1).
  exists wts1, w1. split; [reflexivity|]. split.
  - rewrite Hk. unfold listedEntries. simpl map in Hf. rewrite <- Hf. reflexivity.
  - eapply Ran_step with (cmd := LIST_CMD) (cwd := baseDir); [reflexivity|].
    rewrite Hrun. eapply Ran_trans; eauto.
Qed.

(** [listWorktrees] throws only what the listing command throws. *)
Lemma listWorktrees_failed w msg w0 :
  run LIST_CMD baseDir w = (Failed msg, w0) ->
  listWorktrees run baseDir w = (Throw (CommandFailure msg), w0).
Proof. intros Hrun. unfold listWorktrees, bind, exec. rewrite Hrun. reflexivity. Qed.

Lemma listed_keys wts p :
  listed wts p <-> p ∈ map fst (map keyOf wts).
Proof.
  unfold listed. rewrite map_map. simpl. rewrite list_elem_of_In, in_map_iff.
  split.
  - intros (wt & Hin & <-). exists wt. split; [reflexivity|by apply list_elem_of_In].
  - intros (wt & <- & Hin). exists wt. split; [by apply list_elem_of_In|reflexivity].
Qed.

End RegistryFacts.

(* ===================================================================== *)
(** * Port lease allocator *)
(* ===================================================================== *)

Section ScanFacts.

Lemma setHas_true v used : setHas v used = true <-> v ∈ used.
Proof. unfold setHas. apply bool_decide_eq_true. Qed.

Lemma setHas_false v used : setHas v used = false <-> v ∉ used.
Proof. unfold setHas. apply bool_decide_eq_false. Qed.

Lemma elem_of_setAdd v x used : v ∈ setAdd x used <-> v = x \/ v ∈ used.
Proof.
  unfold setAdd. destruct (setHas x used) eqn:E.
  - apply setHas_true in E. split; [auto|]. intros [->|H]; auto.
  - rewrite elem_of_app, list_elem_of_singleton. tauto.
Qed.

Lemma elem_of_collect dk wts : forall used v,
  v ∈ fold_left (collectPure dk) wts used <->
  v ∈ used \/
  exists wt, wt ∈ wts /\ fieldOf dk (path wt) "port" = Some v /\ truthy (Some v) = true.
Proof.
  induction wts as [|wt wts IH]; intros used v; cbn [fold_left].
  - split; [auto|]. intros [H|(wt & H & _)]; [auto|]. by apply elem_of_nil in H.
  - rewrite IH. unfold collectPure at 1. split.
    + intros [H|(wt' & Hin & Hf & Ht)].
      * destruct (fieldOf dk (path wt) "port") as [x|] eqn:Hx; [|auto].
        destruct (truthy (Some x)) eqn:Htx; [|auto].
        apply elem_of_setAdd in H as [->|H]; [|auto].
        right. exists wt. split; [left|auto].
      * right. exists wt'. split; [by right|auto].
    + intros [H|(wt' & Hin & Hf & Ht)].
      * left. destruct (fieldOf dk (path wt) "port") as [x|]; [|auto].
        destruct (truthy (Some x)); [|auto]. apply elem_of_setAdd. auto.
      * apply elem_of_cons in Hin as [->|Hin].
        -- left. rewrite Hf, Ht. apply elem_of_setAdd. auto.
        -- right. exists wt'. auto.
Qed.

(** A port of the pool is in [usedPorts] exactly when it is held. *)
Lemma setHas_usedPorts dk wts n :
  n <> 0 -> (setHas (JNum n) (usedPortsOf dk wts) = true <-> held dk wts n).
Proof.
  intros Hn. rewrite setHas_true. unfold usedPortsOf, held. rewrite elem_of_collect.
  split.
  - intros [H|(wt & Hin & Hf & _)]; [by apply elem_of_nil in H|eauto].
  - intros (wt & Hin & Hf). right. exists wt. repeat split; auto.
    simpl. apply negb_true_iff, Z.eqb_neq, Hn.
Qed.

Lemma scanPorts_spec used : forall k p,
  0 <= p ->
  (scanPorts k p used = -1 /\
   forall q, p <= q < p + Z.of_nat k -> setHas (JNum q) used = true) \/
  (p <= scanPorts k p used < p + Z.of_nat k /\
   setHas (JNum (scanPorts k p used)) used = false /\
   forall q, p <= q < scanPorts k p used -> setHas (JNum q) used = true).
Proof.
  induction k as [|k IH]; intros p Hp.
  - left. split; [reflexivity|]. intros q Hq. lia.
  - cbn [scanPorts]. destruct (setHas (JNum p) used) eqn:E; cbn [negb].
    + destruct (IH (p + 1)) as [[Hr Hall]|(Hr & Hfree & Hall)]; [lia| |].
      * left. split; [exact Hr|]. intros q Hq.
        destruct (decide (q = p)) as [->|Hne]; [exact E|apply Hall; lia].
      * right. split; [lia|]. split; [exact Hfree|]. intros q Hq.
        destruct (decide (q = p)) as [->|Hne]; [exact E|apply Hall; lia].
    + right. split; [lia|]. split; [exact E|]. intros q Hq. lia.
Qed.

(** [firstFreePort] is -1 when the pool is used up, and the smallest unused
    port of the pool otherwise. *)
Lemma firstFreePort_spec used :
  (firstFreePort used = -1 /\
   forall q, PORT_MIN <= q <= PORT_MAX -> setHas (JNum q) used = true) \/
  (PORT_MIN <= firstFreePort used <= PORT_MAX /\
   setHas (JNum (firstFreePort used)) used = false /\
   forall q, PORT_MIN <= q < firstFreePort used -> setHas (JNum q) used = true).
Proof.
  unfold firstFreePort.
  destruct (scanPorts_spec used (Z.to_nat (PORT_MAX - PORT_MIN + 1)) PORT_MIN)
    as [[Hr Hall]|(Hr & Hfree & Hall)]; [unfold PORT_MIN; lia| |].
  - left. split; [exact Hr|]. intros q Hq. apply Hall. unfold PORT_MIN, PORT_MAX in *. lia.
  - right. split; [unfold PORT_MIN, PORT_MAX in *; lia|]. split; [exact Hfree|exact Hall].
Qed.

End ScanFacts.

Section LeaseFacts.
Context {Vcs : Type}.
Implicit Types (w : World Vcs) (p q k : string).

Lemma metaOf_putEnv p s w q : metaOf (disk (putEnv p s w)) q = metaOf (disk w) q.
Proof.
  unfold metaOf, putEnv. simpl. destruct (decide (p = q)) as [->|Hne].
  - rewrite lookup_alter_eq. destruct (disk w !! q); reflexivity.
  - rewrite lookup_alter_ne by done. reflexivity.
Qed.

Lemma disk_putEnv_is_Some p s w q :
  is_Some (disk (putEnv p s w) !! q) <-> is_Some (disk w !! q).
Proof.
  unfold putEnv. simpl. destruct (decide (p = q)) as [->|Hne].
  - rewrite lookup_alter_eq. destruct (disk w !! q); simpl; split; intros [x Hx]; eauto; discriminate.
  - by rewrite lookup_alter_ne.
Qed.

Lemma writeEnv_run p s w dir :
  disk w !! p = Some dir -> writeEnv p s w = (Ok tt, putEnv p s w).
Proof.
  intros H. unfold writeEnv, putEnv. rewrite H. do 2 f_equal.
  apply map_eq. intros q. destruct (decide (p = q)) as [->|Hne].
  - rewrite lookup_insert_eq, lookup_alter_eq, H. reflexivity.
  - rewrite lookup_insert_ne, lookup_alter_ne by done. reflexivity.
Qed.

Lemma envOf_putMeta p m w q : envOf (disk (putMeta p m w)) q = envOf (disk w) q.
Proof.
  unfold envOf, putMeta. simpl. destruct (decide (p = q)) as [->|Hne].
  - rewrite lookup_alter_eq. destruct (disk w !! q); reflexivity.
  - rewrite lookup_alter_ne by done. reflexivity.
Qed.

Lemma docOf_leased p n w q :
  docOf (disk (leased p n w)) q =
  if decide (p = q)
  then match disk w !! p with
       | Some _ => Some (<["port" := JNum n]> (default ∅ (docOf (disk w) p)))
       | None => None
       end
  else docOf (disk w) q.
Proof.
  unfold leased, docOf at 1. rewrite metaOf_putEnv, metaOf_putMeta.
  destruct (decide (p = q)); [|reflexivity]. destruct (disk w !! p); reflexivity.
Qed.

Lemma fieldOf_leased_port p n w :
  is_Some (disk w !! p) -> fieldOf (disk (leased p n w)) p "port" = Some (JNum n).
Proof.
  intros [dir H]. unfold fieldOf. rewrite docOf_leased, decide_True by done.
  rewrite H. apply lookup_insert_eq.
Qed.

Lemma fieldOf_leased_field p n w k :
  k <> "port" -> fieldOf (disk (leased p n w)) p k = fieldOf (disk w) p k.
Proof.
  intros Hk. unfold fieldOf. rewrite docOf_leased, decide_True by done.
  destruct (disk w !! p) as [dir|] eqn:H.
  - rewrite lookup_insert_ne by done. destruct (docOf (disk w) p); reflexivity.
  - unfold docOf, metaOf. rewrite H. reflexivity.
Qed.

Lemma fieldOf_leased_ne p n w q k :
  p <> q -> fieldOf (disk (leased p n w)) q k = fieldOf (disk w) q k.
Proof. intros H. unfold fieldOf. rewrite docOf_leased, decide_False by done. reflexivity. Qed.

Lemma disk_leased_is_Some p n w q :
  is_Some (disk (leased p n w) !! q) <-> is_Some (disk w !! q).
Proof. unfold leased. rewrite disk_putEnv_is_Some. apply disk_putMeta_is_Some. Qed.

Lemma metaOf_leased_ne p n w q :
  p <> q -> metaOf (disk (leased p n w)) q = metaOf (disk w) q.
Proof.
  intros H. unfold leased. rewrite metaOf_putEnv, metaOf_putMeta, decide_False by done.
  reflexivity.
Qed.

Lemma metaOf_leased_not_corrupt p n w q :
  metaOf (disk w) q <> Some Corrupt -> metaOf (disk (leased p n w)) q <> Some Corrupt.
Proof.
  intros H. unfold leased. rewrite metaOf_putEnv, metaOf_putMeta.
  destruct (decide (p = q)); [|exact H]. destruct (disk w !! p); discriminate.
Qed.

End LeaseFacts.

Section PortFacts.
Context {Vcs : Type}.
Variable run : string -> string -> World Vcs -> Outcome * World Vcs.
Variable baseDir : string.
Implicit Types (w : World Vcs) (feature : string).

Lemma collectStep_run used wt w :
  collectStep used wt w = (Ok (collectPure (disk w) used wt), w).
Proof.
  unfold collectStep, bind. rewrite existsMetadata_run.
  unfold collectPure, fieldOf, docOf.
  destruct (metaOf (disk w) (path wt)) as [[|d]|] eqn:E; [| |reflexivity];
    unfold tryCatch, bind, readJson; rewrite E; [reflexivity|].
  destruct (d !! "port") as [v|]; [|reflexivity].
  destruct (truthy (Some v)); reflexivity.
Qed.

Lemma foldM_collect wts : forall used w,
  foldM collectStep wts used w = (Ok (fold_left (collectPure (disk w)) wts used), w).
Proof.
  induction wts as [|wt wts IH]; intros used w; [reflexivity|].
  cbn [foldM fold_left]. unfold bind. rewrite collectStep_run. apply IH.
Qed.

(** [portRequest] once the registry has answered. *)
Lemma portRequest_run feature w wts w1 :
  let p := getWorktreeDir baseDir feature in
  is_Some (disk w !! p) ->
  listWorktrees run baseDir w = (Ok wts, w1) ->
  is_Some (disk w1 !! p) ->
  metaOf (disk w1) p <> Some Corrupt ->
  portRequest run baseDir feature w =
  if firstFreePort (usedPortsOf (disk w1) wts) =? -1
  then (Throw RangeExhausted, w1)
  else (Ok (firstFreePort (usedPortsOf (disk w1) wts)),
        leased p (firstFreePort (usedPortsOf (disk w1) wts)) w1).
Proof.
  intros p [dir H] Hl [dir1 H1] Hc. unfold portRequest, bind. fold p.
  rewrite (existsSync_Some _ _ _ H). cbn [negb]. rewrite Hl.
  rewrite foldM_collect. fold (usedPortsOf (disk w1) wts).
  destruct (firstFreePort (usedPortsOf (disk w1) wts) =? -1); [reflexivity|].
  rewrite (loadOrEmpty_run _ _ Hc). rewrite (writeJson_run _ _ _ _ H1).
  set (w2 := putMeta p _ w1).
  assert (Hs2 : is_Some (disk w2 !! p)) by (apply disk_putMeta_is_Some; eauto).
  destruct Hs2 as [dir2 H2].
  unfold readEnvOrEmpty. unfold w2 at 1. rewrite envOf_putMeta.
  unfold leased. fold w2.
  destruct (envOf (disk w1) p) as [e|]; cbn [default];
    rewrite (writeEnv_run _ _ _ _ H2); reflexivity.
Qed.

(** Every way [portRequest] can return. *)
Lemma portRequest_inv feature w n w' :
  let p := getWorktreeDir baseDir feature in
  portRequest run baseDir feature w = (Ok n, w') ->
  exists wts w1,
    is_Some (disk w !! p) /\
    listWorktrees run baseDir w = (Ok wts, w1) /\
    is_Some (disk w1 !! p) /\
    metaOf (disk w1) p <> Some Corrupt /\
    n = firstFreePort (usedPortsOf (disk w1) wts) /\
    n <> -1 /\
    w' = leased p n w1.
Proof.
  intros p Hrun.
  destruct (disk w !! p) as [dir|] eqn:H.
  2:{ unfold portRequest, bind in Hrun. fold p in Hrun.
      rewrite (existsSync_None _ _ H) in Hrun. discriminate. }
  destruct (listWorktrees run baseDir w) as [[wts|e] w1] eqn:Hl.
  2:{ unfold portRequest, bind in Hrun. fold p in Hrun.
      rewrite (existsSync_Some _ _ _ H) in Hrun. cbn [negb] in Hrun.
      rewrite Hl in Hrun. discriminate. }
  destruct (disk w1 !! p) as [dir1|] eqn:H1.
  2:{ unfold portRequest, bind in Hrun. fold p in Hrun.
      rewrite (existsSync_Some _ _ _ H) in Hrun. cbn [negb] in Hrun.
      rewrite Hl in Hrun. rewrite foldM_collect in Hrun.
      destruct (_ =? -1); [discriminate|].
      assert (Hm : metaOf (disk w1) p <> Some Corrupt)
        by (unfold metaOf; rewrite H1; discriminate).
      rewrite (loadOrEmpty_run _ _ Hm) in Hrun.
      unfold writeJson in Hrun. rewrite H1 in Hrun. discriminate. }
  assert (Hdec : metaOf (disk w1) p = Some Corrupt \/ metaOf (disk w1) p <> Some Corrupt).
  { destruct (metaOf _ _) as [[|d]|]; [left; reflexivity|right; congruence..]. }
  destruct Hdec as [Hc|Hc].
  { unfold portRequest, bind in Hrun. fold p in Hrun.
    rewrite (existsSync_Some _ _ _ H) in Hrun. cbn [negb] in Hrun.
    rewrite Hl in Hrun. rewrite foldM_collect in Hrun.
    destruct (_ =? -1); [discriminate|].
    rewrite (loadOrEmpty_corrupt _ _ Hc) in Hrun. discriminate. }
  assert (Hs : is_Some (disk w !! p)) by eauto.
  assert (Hs1 : is_Some (disk w1 !! p)) by eauto.
  rewrite (portRequest_run feature w wts w1 Hs Hl Hs1 Hc) in Hrun. fold p in Hrun.
  destruct (_ =? -1) eqn:En; [discriminate|]. apply Z.eqb_neq in En.
  inversion Hrun. subst n. exists wts, w1. repeat split; auto.
Qed.

End PortFacts.

Section PortClaims.
Context {Vcs : Type}.
Variable run : string -> string -> World Vcs -> Outcome * World Vcs.
Variable baseDir : string.
Implicit Types (w : World Vcs) (feature : string).

(** The listing and status commands leave the directories as they are. *)
Hypothesis run_query :
  forall cmd cwd w, isQuery cmd = true -> disk (snd (run cmd cwd w)) = disk w.

Lemma listWorktrees_Ok_shape w wts w1 :
  listWorktrees run baseDir w = (Ok wts, w1) ->
  exists out,
    fst (run LIST_CMD baseDir w) = Exit0 out /\
    map keyOf wts = listedEntries (Js.trim out) /\
    disk w1 = disk w.
Proof.
  intros Hl. destruct (run LIST_CMD baseDir w) as [[out|msg] w0] eqn:Hrun.
  - destruct (listWorktrees_shape run baseDir w out w0 Hrun) as (wts' & w1' & Hl' & Hk & Hr).
    rewrite Hl in Hl'. inversion Hl'; subst. exists out. split; [reflexivity|].
    split; [exact Hk|]. eapply Ran_disk; eauto.
  - rewrite (listWorktrees_failed run baseDir w msg w0 Hrun) in Hl. discriminate.
Qed.

Lemma listWorktrees_disk w wts w1 :
  listWorktrees run baseDir w = (Ok wts, w1) -> disk w1 = disk w.
Proof. intros Hl. destruct (listWorktrees_Ok_shape _ _ _ Hl) as (out & _ & _ & H). exact H. Qed.

Lemma alwaysListed_listed p w wts w1 :
  alwaysListed run baseDir p ->
  listWorktrees run baseDir w = (Ok wts, w1) -> listed wts p.
Proof.
  intros Ha Hl. destruct (Ha w) as (out & Ho & Hin).
  destruct (listWorktrees_Ok_shape _ _ _ Hl) as (out' & Ho' & Hk & _).
  rewrite Ho in Ho'. inversion Ho'; subst out'.
  apply listed_keys. rewrite Hk. exact Hin.
Qed.

Lemma pool_nonzero n : PORT_MIN <= n <= PORT_MAX -> n <> 0.
Proof. unfold PORT_MIN. lia. Qed.

(** Part 1 of C5: the smallest port of the pool that no listed worktree
    holds is returned and written to the requester's metadata. *)
Lemma portRequest_smallest_free feature w wts w1 n :
  let p := getWorktreeDir baseDir feature in
  is_Some (disk w !! p) ->
  metaOf (disk w) p <> Some Corrupt ->
  listWorktrees run baseDir w = (Ok wts, w1) ->
  PORT_MIN <= n <= PORT_MAX ->
  ~ held (disk w) wts n ->
  (forall m, PORT_MIN <= m < n -> held (disk w) wts m) ->
  portRequest run baseDir feature w = (Ok n, leased p n w1) /\
  fieldOf (disk (leased p n w1)) p "port" = Some (JNum n).
Proof.
  intros p Hs Hc Hl Hn Hfree Hbelow.
  pose proof (listWorktrees_disk _ _ _ Hl) as Hd.
  assert (Hs1 : is_Some (disk w1 !! p)) by (rewrite Hd; exact Hs).
  assert (Hc1 : metaOf (disk w1) p <> Some Corrupt) by (rewrite Hd; exact Hc).
  rewrite (portRequest_run run baseDir feature w wts w1 Hs Hl Hs1 Hc1). fold p.
  rewrite Hd.
  assert (En : firstFreePort (usedPortsOf (disk w) wts) = n).
  { destruct (firstFreePort_spec (usedPortsOf (disk w) wts))
      as [[_ Hall]|(Hr & Hf & Hall)].
    - exfalso. apply Hfree. apply setHas_usedPorts; [by apply pool_nonzero|].
      apply Hall, Hn.
    - set (r := firstFreePort (usedPortsOf (disk w) wts)) in *.
      destruct (Z.lt_trichotomy r n) as [Hlt|[Heq|Hgt]]; [|exact Heq|].
      + exfalso. assert (Hh : held (disk w) wts r) by (apply Hbelow; lia).
        apply setHas_usedPorts in Hh; [congruence|apply pool_nonzero; lia].
      + exfalso. apply Hfree. apply setHas_usedPorts; [by apply pool_nonzero|].
        apply Hall. lia. }
  rewrite En. replace (n =? -1) with false
    by (symmetry; apply Z.eqb_neq; unfold PORT_MIN in Hn; lia).
  split; [reflexivity|]. apply fieldOf_leased_port, Hs1.
Qed.

(** Part 2 of C5: when every port of the pool is held, the request throws. *)
Lemma portRequest_exhausted feature w wts w1 :
  let p := getWorktreeDir baseDir feature in
  is_Some (disk w !! p) ->
  metaOf (disk w) p <> Some Corrupt ->
  listWorktrees run baseDir w = (Ok wts, w1) ->
  (forall n, PORT_MIN <= n <= PORT_MAX -> held (disk w) wts n) ->
  portRequest run baseDir feature w = (Throw RangeExhausted, w1).
Proof.
  intros p Hs Hc Hl Hall.
  pose proof (listWorktrees_disk _ _ _ Hl) as Hd.
  assert (Hs1 : is_Some (disk w1 !! p)) by (rewrite Hd; exact Hs).
  assert (Hc1 : metaOf (disk w1) p <> Some Corrupt) by (rewrite Hd; exact Hc).
  rewrite (portRequest_run run baseDir feature w wts w1 Hs Hl Hs1 Hc1). fold p.
  rewrite Hd.
  destruct (firstFreePort_spec (usedPortsOf (disk w) wts))
    as [[-> _]|(Hr & Hf & _)]; [reflexivity|].
  exfalso. specialize (Hall _ Hr).
  apply setHas_usedPorts in Hall; [congruence|by apply pool_nonzero].
Qed.

(** Part 3 of C5: a returned port lies in the pool and is held by no listed
    worktree at the time of the request. *)
Lemma portRequest_in_pool feature w n w' :
  portRequest run baseDir feature w = (Ok n, w') ->
  PORT_MIN <= n <= PORT_MAX.
Proof.
  intros Hrun. apply portRequest_inv in Hrun.
  destruct Hrun as (wts & w1 & _ & _ & _ & _ & -> & Hne & _).
  destruct (firstFreePort_spec (usedPortsOf (disk w1) wts))
    as [[Hr _]|(Hr & _ & _)]; [congruence|exact Hr].
Qed.

Lemma portRequest_fresh feature w n w' wts w1 :
  portRequest run baseDir feature w = (Ok n, w') ->
  listWorktrees run baseDir w = (Ok wts, w1) ->
  ~ held (disk w) wts n /\ w' = leased (getWorktreeDir baseDir feature) n w1.
Proof.
  intros Hrun Hl. pose proof (portRequest_in_pool _ _ _ _ Hrun) as Hpool.
  apply portRequest_inv in Hrun.
  destruct Hrun as (wts' & w1' & _ & Hl' & _ & _ & -> & Hne & ->).
  rewrite Hl in Hl'. inversion Hl'; subst wts' w1'. split; [|reflexivity].
  pose proof (listWorktrees_disk _ _ _ Hl) as Hd. rewrite Hd in *.
  destruct (firstFreePort_spec (usedPortsOf (disk w) wts))
    as [[Hr _]|(Hr & Hf & _)]; [congruence|].
  intros Hh. apply setHas_usedPorts in Hh; [congruence|by apply pool_nonzero].
Qed.

Lemma portRelease_run feature w d :
  let p := getWorktreeDir baseDir feature in
  is_Some (disk w !! p) ->
  docOf (disk w) p = Some d ->
  truthy (d !! "port") = true ->
  portRelease baseDir feature w = (Ok tt, putMeta p (Some (Json (delete "port" d))) w).
Proof.
  intros p [dir H] Hd Ht. unfold portRelease, bind. fold p.
  rewrite (existsSync_Some _ _ _ H). cbn [negb]. rewrite existsMetadata_run.
  pose proof (docOf_metaOf _ _ _ Hd) as Hm. rewrite Hm.
  unfold readJson. rewrite Hm. rewrite Ht. apply (writeJson_run _ _ _ _ H).
Qed.

(** Part 4 of C5: requests made one after the other for worktrees with
    different directories, all of them in every listing, return ports that
    differ from each other and from the ports [taken] before. *)
Lemma requestAll_distinct fs : forall w ports w' (taken : list (string * Z)),
  NoDup (map (getWorktreeDir baseDir) fs) ->
  (forall f, f ∈ fs -> alwaysListed run baseDir (getWorktreeDir baseDir f)) ->
  (forall q n, (q, n) ∈ taken ->
     (q ∉ map (getWorktreeDir baseDir) fs) /\
     alwaysListed run baseDir q /\
     fieldOf (disk w) q "port" = Some (JNum n)) ->
  requestAll run baseDir fs w = (Ok ports, w') ->
  NoDup ports /\ forall n, n ∈ ports -> n ∉ map snd taken.
Proof.
  induction fs as [|f fs IH]; intros w ports w' taken Hnd Hlist Htaken Hrun.
  - inversion Hrun; subst. split; [constructor|]. intros n Hn. by apply elem_of_nil in Hn.
  - cbn [requestAll] in Hrun. unfold bind in Hrun.
    destruct (portRequest run baseDir f w) as [[n|e] wa] eqn:Hreq; [|discriminate].
    destruct (requestAll run baseDir fs wa) as [[ns|e] wb] eqn:Hrest; [|discriminate].
    inversion Hrun; subst ports w'. clear Hrun.
    set (p := getWorktreeDir baseDir f) in *.
    cbn [map] in Hnd. fold p in Hnd. apply NoDup_cons in Hnd as [Hp Hnd].
    pose proof (portRequest_inv run baseDir f w n wa Hreq) as Hinv. fold p in Hinv.
    destruct Hinv as (wts & w1 & Hs & Hl & Hs1 & _ & _ & _ & _).
    destruct (portRequest_fresh f w n wa wts w1 Hreq Hl) as [Hfree Hwa]. fold p in Hwa.
    pose proof (listWorktrees_disk _ _ _ Hl) as Hd.
    assert (Hnew : n ∉ map snd taken).
    { intros Hin. apply list_elem_of_In, in_map_iff in Hin.
      destruct Hin as ([q m] & Hm & Hin). simpl in Hm. subst m.
      apply list_elem_of_In in Hin. destruct (Htaken q n Hin) as (_ & Hal & Hf).
      apply Hfree. destruct (alwaysListed_listed q w wts w1 Hal Hl) as (wt & Hwt & Hpath).
      exists wt. split; [exact Hwt|]. rewrite Hpath. exact Hf. }
    destruct (IH wa ns wb ((p, n) :: taken) Hnd) as [Hns Hout].
    + intros f' Hf'. apply Hlist. by right.
    + intros q m Hin. apply elem_of_cons in Hin as [Heq|Hin].
      * inversion Heq; subst q m. split; [exact Hp|]. split; [apply Hlist; left|].
        rewrite Hwa. apply fieldOf_leased_port, Hs1.
      * destruct (Htaken q m Hin) as (Hq & Hal & Hf). cbn [map] in Hq. fold p in Hq.
        apply not_elem_of_cons in Hq as [Hqp Hq].
        split; [exact Hq|]. split; [exact Hal|].
        rewrite Hwa, fieldOf_leased_ne by congruence. rewrite Hd. exact Hf.
    + exact Hrest.
    + split.
      * apply NoDup_cons. split; [|exact Hns].
        intros Hin. apply (Hout n Hin). cbn [map snd]. left.
      * intros m Hm. apply elem_of_cons in Hm as [->|Hm]; [exact Hnew|].
        intros Hin. apply (Hout m Hm). cbn [map]. by right.
Qed.

(** Part 5 of C5: once a worktree has released its port, the port is free
    again: when it is the smallest port that no other listed worktree
    holds, the next request gets it. *)
Lemma released_port_reassigned f g w n d wts w1 :
  let p := getWorktreeDir baseDir f in
  let q := getWorktreeDir baseDir g in
  let w2 := putMeta p (Some (Json (delete "port" d))) w in
  is_Some (disk w !! p) ->
  docOf (disk w) p = Some d ->
  d !! "port" = Some (JNum n) ->
  PORT_MIN <= n <= PORT_MAX ->
  portRelease baseDir f w = (Ok tt, w2) /\
  (is_Some (disk w !! q) ->
   metaOf (disk w) q <> Some Corrupt ->
   listWorktrees run baseDir w2 = (Ok wts, w1) ->
   (forall wt, wt ∈ wts -> path wt <> p ->
               fieldOf (disk w) (path wt) "port" <> Some (JNum n)) ->
   (forall m, PORT_MIN <= m < n ->
              exists wt, wt ∈ wts /\ path wt <> p /\
                         fieldOf (disk w) (path wt) "port" = Some (JNum m)) ->
   portRequest run baseDir g w2 = (Ok n, leased q n w1)).
Proof.
  intros p q w2 Hs Hd Hport Hn. split.
  { apply portRelease_run; [exact Hs|exact Hd|].
    rewrite Hport. simpl. apply negb_true_iff, Z.eqb_neq, pool_nonzero, Hn. }
  intros Hq Hc Hl Hothers Hbelow.
  destruct Hs as [dir H].
  assert (Hf2 : forall r k, r <> p ->
            fieldOf (disk w2) r k = fieldOf (disk w) r k).
  { intros r k Hr. unfold fieldOf, w2. rewrite docOf_putMeta_ne by congruence. reflexivity. }
  assert (Hfp : fieldOf (disk w2) p "port" = None).
  { unfold fieldOf, w2. rewrite (docOf_putMeta_eq _ _ _ _ H). apply lookup_delete_eq. }
  eapply proj1, portRequest_smallest_free; [| |exact Hl|exact Hn| |].
  - apply disk_putMeta_is_Some. exact Hq.
  - unfold w2. rewrite metaOf_putMeta. fold q. destruct (decide (p = q)); [|exact Hc].
    destruct (disk w !! p); discriminate.
  - intros (wt & Hwt & Hf). destruct (decide (path wt = p)) as [Hp|Hp].
    + rewrite Hp, Hfp in Hf. discriminate.
    + rewrite Hf2 in Hf by exact Hp. exact (Hothers wt Hwt Hp Hf).
  - intros m Hm. destruct (Hbelow m Hm) as (wt & Hwt & Hp & Hf).
    exists wt. split; [exact Hwt|]. rewrite Hf2 by exact Hp. exact Hf.
Qed.

(** What holds of the allocation for the worktrees of the listing: on an
    existing worktree with readable metadata and a registry that answers,
    [portRequest] returns the smallest port of
    8000..8050 that no worktree of the registry's listing holds and records
    it in the requester's metadata, and throws the range-exhausted error
    when the listed worktrees hold them all; whatever it returns lies in
    8000..8050; requests made one after the other for listed worktrees in
    different directories return pairwise different ports; and a released
    port goes to the next request when it is the smallest free one. *)
Theorem port_lease_allocation :
  (forall feature w wts w1,
     let p := getWorktreeDir baseDir feature in
     is_Some (disk w !! p) ->
     metaOf (disk w) p <> Some Corrupt ->
     listWorktrees run baseDir w = (Ok wts, w1) ->
     (forall n,
        PORT_MIN <= n <= PORT_MAX ->
        ~ held (disk w) wts n ->
        (forall m, PORT_MIN <= m < n -> held (disk w) wts m) ->
        portRequest run baseDir feature w = (Ok n, leased p n w1) /\
        fieldOf (disk (leased p n w1)) p "port" = Some (JNum n)) /\
     ((forall n, PORT_MIN <= n <= PORT_MAX -> held (disk w) wts n) ->
      portRequest run baseDir feature w = (Throw RangeExhausted, w1))) /\
  (forall feature w n w',
     portRequest run baseDir feature w = (Ok n, w') -> PORT_MIN <= n <= PORT_MAX) /\
  (forall features w ports w',
     NoDup (map (getWorktreeDir baseDir) features) ->
     (forall f, f ∈ features -> alwaysListed run baseDir (getWorktreeDir baseDir f)) ->
     requestAll run baseDir features w = (Ok ports, w') ->
     NoDup ports) /\
  (forall f g w n d wts w1,
     let p := getWorktreeDir baseDir f in
     let q := getWorktreeDir baseDir g in
     let w2 := putMeta p (Some (Json (delete "port" d))) w in
     is_Some (disk w !! p) ->
     docOf (disk w) p = Some d ->
     d !! "port" = Some (JNum n) ->
     PORT_MIN <= n <= PORT_MAX ->
     portRelease baseDir f w = (Ok tt, w2) /\
     (is_Some (disk w !! q) ->
      metaOf (disk w) q <> Some Corrupt ->
      listWorktrees run baseDir w2 = (Ok wts, w1) ->
      (forall wt, wt ∈ wts -> path wt <> p ->
                  fieldOf (disk w) (path wt) "port" <> Some (JNum n)) ->
      (forall m, PORT_MIN <= m < n ->
                 exists wt, wt ∈ wts /\ path wt <> p /\
                            fieldOf (disk w) (path wt) "port" = Some (JNum m)) ->
      portRequest run baseDir g w2 = (Ok n, leased q n w1))).
Proof.
  split; [|split; [|split]].
  - intros feature w wts w1 p Hs Hc Hl. split.
    + intros n Hn Hfree Hbelow.
      exact (portRequest_smallest_free feature w wts w1 n Hs Hc Hl Hn Hfree Hbelow).
    + intros Hall. exact (portRequest_exhausted feature w wts w1 Hs Hc Hl Hall).
  - apply portRequest_in_pool.
  - intros features w ports w' Hnd Hlist Hrun.
    destruct (requestAll_distinct features w ports w' [] Hnd Hlist) as [H _]; auto.
    intros q n Hin. by apply elem_of_nil in Hin.
  - intros f g w n d wts w1. apply (released_port_reassigned f g w n d wts w1).
Qed.


End PortClaims.

(* ===================================================================== *)
(** * Garbage collector *)
(* ===================================================================== *)

Section GcFacts.
Context {Vcs : Type}.
Variable run : string -> string -> World Vcs -> Outcome * World Vcs.
Variable baseDir : string.
Implicit Types (w : World Vcs) (wt : WorktreeInfo) (base : string).

(** The body of the loop, case by case. *)
Lemma gcStep_unfold base removed wt w :
  gcStep run baseDir base removed wt w =
  match isMergedInto run baseDir base wt w with
  | (Ok true, w1) =>
      if wtClean wt then
        if truthy (lockOf (disk w1) (path wt)) then (Ok removed, w1)
        else match exec run (removeCmd (path wt)) baseDir w1 with
             | (Ok _, w2) =>
                 match exec run (deleteCmd (branch wt)) baseDir w2 with
                 | (Ok _, w3) => (Ok (removed ++ [branch wt]), w3)
                 | (Throw _, w3) => (Ok removed, w3)
                 end
             | (Throw _, w2) => (Ok removed, w2)
             end
      else (Ok removed, w1)
  | (Ok false, w1) => (Ok removed, w1)
  | (Throw _, w1) => (Ok removed, w1)
  end.
Proof.
  unfold gcStep, tryCatch, bind.
  destruct (isMergedInto run baseDir base wt w) as [[[|]|e] w1]; [|reflexivity..].
  destruct (wtClean wt); cbn [andb]; [|reflexivity].
  rewrite getLockStatus_run.
  destruct (truthy (lockOf (disk w1) (path wt))); cbn [negb]; [reflexivity|].
  destruct (exec run (removeCmd (path wt)) baseDir w1) as [[o1|e1] w2]; [|reflexivity].
  destruct (exec run (deleteCmd (branch wt)) baseDir w2) as [[o2|e2] w3]; reflexivity.
Qed.

(** One turn of the loop never throws, and pushes the branch exactly when
    the removal succeeds. *)
Lemma gcStep_cases base removed wt w :
  (removalSucceeds run baseDir base wt w /\
   gcStep run baseDir base removed wt w =
     (Ok (removed ++ [branch wt]), afterAttempt run baseDir base wt w)) \/
  (~ removalSucceeds run baseDir base wt w /\
   gcStep run baseDir base removed wt w =
     (Ok removed, afterAttempt run baseDir base wt w)).
Proof.
  unfold afterAttempt, removalSucceeds. rewrite !gcStep_unfold.
  destruct (isMergedInto run baseDir base wt w) as [[[|]|e] w1] eqn:Hm.
  - destruct (wtClean wt) eqn:Hc.
    + destruct (truthy (lockOf (disk w1) (path wt))) eqn:Hl.
      * right. split; [|reflexivity].
        intros (w1' & o1 & w2 & o2 & w3 & E1 & E2 & E3 & E4 & E5). congruence.
      * destruct (exec run (removeCmd (path wt)) baseDir w1) as [[o1|e1] w2] eqn:Hr.
        -- destruct (exec run (deleteCmd (branch wt)) baseDir w2) as [[o2|e2] w3] eqn:Hd.
           ++ left. split; [|reflexivity]. exists w1, o1, w2, o2, w3. auto.
           ++ right. split; [|reflexivity].
              intros (w1' & o1' & w2' & o2' & w3' & E1 & E2 & E3 & E4 & E5).
              congruence.
        -- right. split; [|reflexivity].
           intros (w1' & o1' & w2' & o2' & w3' & E1 & E2 & E3 & E4 & E5).
           congruence.
    + right. split; [|reflexivity].
      intros (w1' & o1 & w2 & o2 & w3 & E1 & E2 & E3 & E4 & E5). congruence.
  - right. split; [|reflexivity].
    intros (w1' & o1 & w2 & o2 & w3 & E1 & E2 & E3 & E4 & E5). congruence.
  - right. split; [|reflexivity].
    intros (w1' & o1 & w2 & o2 & w3 & E1 & E2 & E3 & E4 & E5). congruence.
Qed.

(** The loop of [gc] never throws; what it appends follows [gcRun]. *)
Lemma gc_loop base wts : forall w removed,
  exists rs w',
    foldM (gcStep run baseDir base) wts removed w = (Ok (removed ++ rs), w') /\
    gcRun run baseDir base wts w rs.
Proof.
  induction wts as [|wt wts IH]; intros w removed.
  - exists [], w. split; [cbn; by rewrite app_nil_r|constructor].
  - cbn [foldM]. unfold bind.
    destruct (gcStep_cases base removed wt w) as [[Hok ->]|[Hno ->]].
    + destruct (IH (afterAttempt run baseDir base wt w) (removed ++ [branch wt]))
        as (rs & w' & -> & Hrun).
      exists (branch wt :: rs), w'. split.
      * rewrite <- app_assoc. reflexivity.
      * by apply gcRun_removed.
    + destruct (IH (afterAttempt run baseDir base wt w) removed) as (rs & w' & -> & Hrun).
      exists rs, w'. split; [reflexivity|by apply gcRun_skipped].
Qed.

(** A failing fetch is ignored. *)
Lemma fetch_run base w :
  tryCatch (exec run (fetchCmd base) baseDir ;;; ret tt)
           (fun _ => ret tt) w
  = (Ok tt, afterFetch run baseDir base w).
Proof.
  unfold tryCatch, bind, exec, afterFetch.
  destruct (run (fetchCmd base) baseDir w) as [[out|msg] w']; reflexivity.
Qed.

(** Once the registry has answered, [gc] returns. *)
Lemma gc_run base w wts w1 :
  listWorktrees run baseDir w = (Ok wts, w1) ->
  exists removed w',
    gc run baseDir base w = (Ok removed, w') /\
    gcRun run baseDir base wts (afterFetch run baseDir base w1) removed.
Proof.
  intros Hl. unfold gc. unfold bind at 1. rewrite Hl. unfold bind at 1.
  rewrite fetch_run.
  destruct (gc_loop base wts (afterFetch run baseDir base w1) []) as (rs & w' & -> & Hrun).
  exists rs, w'. split; [reflexivity|exact Hrun].
Qed.

(** [gc] throws only what the registry throws. *)
Lemma gc_throws base w e w' :
  gc run baseDir base w = (Throw e, w') ->
  listWorktrees run baseDir w = (Throw e, w').
Proof.
  intros Hgc. destruct (listWorktrees run baseDir w) as [[wts|e1] w1] eqn:Hl.
  - destruct (gc_run base w wts w1 Hl) as (removed & w2 & Hrun & _).
    rewrite Hrun in Hgc. discriminate.
  - unfold gc in Hgc. unfold bind at 1 in Hgc. rewrite Hl in Hgc.
    inversion Hgc. reflexivity.
Qed.

(** Every removed branch is that of a listed worktree found clean. *)
Lemma gcRun_origin base wts w rs :
  gcRun run baseDir base wts w rs ->
  forall b, b ∈ rs -> exists wt, wt ∈ wts /\ branch wt = b /\ wtClean wt = true.
Proof.
  induction 1 as [w|wt wts w rs Hok _ IH|wt wts w rs Hno _ IH]; intros b Hb.
  - by apply elem_of_nil in Hb.
  - apply elem_of_cons in Hb as [->|Hb].
    + exists wt. split; [left|]. split; [reflexivity|].
      destruct Hok as (w1 & o1 & w2 & o2 & w3 & _ & Hc & _). exact Hc.
    + destruct (IH b Hb) as (wt' & Hin & Hbr & Hc). exists wt'. split; [by right|auto].
  - destruct (IH b Hb) as (wt' & Hin & Hbr & Hc). exists wt'. split; [by right|auto].
Qed.

Lemma NoDup_map_eq {A B} (f : A -> B) (l : list A) x y :
  NoDup (map f l) -> x ∈ l -> y ∈ l -> f x = f y -> x = y.
Proof.
  induction l as [|a l IH]; intros Hnd Hx Hy Hf.
  - by apply elem_of_nil in Hx.
  - cbn [map] in Hnd. apply NoDup_cons in Hnd as [Ha Hnd].
    apply elem_of_cons in Hx as [->|Hx]; apply elem_of_cons in Hy as [->|Hy].
    + reflexivity.
    + exfalso. apply Ha. rewrite Hf. apply list_elem_of_In, in_map, list_elem_of_In, Hy.
    + exfalso. apply Ha. rewrite <- Hf. apply list_elem_of_In, in_map, list_elem_of_In, Hx.
    + by apply IH.
Qed.

End GcFacts.

Section GcClaims.
Context {Vcs : Type}.
Variable run : string -> string -> World Vcs -> Outcome * World Vcs.
Variable baseDir : string.
Implicit Types (w : World Vcs) (wt : WorktreeInfo) (base p : string).

(** Directory [p] has a lock owner in world [w]. *)
Let locked w p : Prop := truthy (lockOf (disk w) p) = true.

Lemma snd_exec cmd cwd w : snd (exec run cmd cwd w) = snd (run cmd cwd w).
Proof. unfold exec. destruct (run cmd cwd w) as [[out|msg] w']; reflexivity. Qed.

Lemma query_not_remove cmd p : isQuery cmd = true -> cmd <> removeCmd p.
Proof.
  unfold isQuery. intros H. apply orb_true_iff in H as [H|H];
    apply String.eqb_eq in H; subst cmd; unfold removeCmd; simpl; discriminate.
Qed.

Lemma listWorktrees_Ok_Ran w wts w1 :
  listWorktrees run baseDir w = (Ok wts, w1) -> Ran run isQuery w w1.
Proof.
  intros Hl. destruct (run LIST_CMD baseDir w) as [[out|msg] w0] eqn:Hrun.
  - destruct (listWorktrees_shape run baseDir w out w0 Hrun) as (wts' & w1' & Hl' & _ & Hr).
    rewrite Hl in Hl'. inversion Hl'; subst. exact Hr.
  - rewrite (listWorktrees_failed run baseDir w msg w0 Hrun) in Hl. discriminate.
Qed.

(** The lock owner that the listing records for [wt] is the one on disk at
    some moment of the listing. *)
Let listedLock w' wt : Prop :=
  exists wk, Ran run isQuery wk w' /\ lockedBy wt = lockOf (disk wk) (path wt).

Lemma listedLock_later w w' wt :
  listedLock w wt -> Ran run isQuery w w' -> listedLock w' wt.
Proof.
  intros (wk & Hr & Hlock) Hr'. exists wk. split; [|exact Hlock].
  eapply Ran_trans; eauto.
Qed.

Lemma flushWt_lock cur wts w wts' w' :
  flushWt run cur wts w = (Ok wts', w') ->
  (forall wt, wt ∈ wts -> listedLock w wt) ->
  Ran run isQuery w w' /\ forall wt, wt ∈ wts' -> listedLock w' wt.
Proof.
  rewrite flushWt_run. destruct (readyWt cur) as [[p b]|]; intros Hrun Hold.
  - inversion Hrun; subst wts' w'. clear Hrun.
    assert (Hr : Ran run isQuery w (snd (run STATUS_CMD p w))) by (by apply Ran_one).
    split; [exact Hr|]. intros wt Hin. apply elem_of_app in Hin as [Hin|Hin].
    + eapply listedLock_later; eauto.
    + apply list_elem_of_singleton in Hin. subst wt.
      exists (snd (run STATUS_CMD p w)). split; [apply Ran_refl|reflexivity].
  - inversion Hrun; subst wts' w'. split; [apply Ran_refl|exact Hold].
Qed.

Lemma foldM_listStep_lock lines : forall cur wts w cur' wts' w',
  foldM (listStep run) lines (cur, wts) w = (Ok (cur', wts'), w') ->
  (forall wt, wt ∈ wts -> listedLock w wt) ->
  forall wt, wt ∈ wts' -> listedLock w' wt.
Proof.
  induction lines as [|line lines IH]; intros cur wts w cur' wts' w' Hrun Hold.
  - inversion Hrun; subst. exact Hold.
  - cbn [foldM] in Hrun. unfold bind at 1 in Hrun. unfold listStep at 1 in Hrun.
    destruct (Js.startsWith "worktree " line).
    + unfold bind at 1 in Hrun.
      destruct (flushWt run cur wts w) as [[wts1|e] w1] eqn:Hf; [|discriminate].
      destruct (flushWt_lock _ _ _ _ _ Hf Hold) as [_ H1].
      cbn [ret] in Hrun. eapply IH; eauto.
    + cbn [ret] in Hrun. eapply IH; eauto.
Qed.

Lemma listWorktrees_lock w wts w1 :
  listWorktrees run baseDir w = (Ok wts, w1) ->
  forall wt, wt ∈ wts -> listedLock w1 wt.
Proof.
  unfold listWorktrees, bind. intros Hl.
  destruct (exec run LIST_CMD baseDir w) as [[out|e] w0]; [|discriminate].
  destruct (foldM (listStep run) (Js.splitLines out)
              ({| p_path := None; p_branch := None |}, []) w0)
    as [[[cur' wts']|e] w'] eqn:Hfold; [|discriminate].
  cbn [fst snd] in Hl.
  assert (H0 : forall wt, wt ∈ wts' -> listedLock w' wt).
  { eapply foldM_listStep_lock; [exact Hfold|].
    intros wt Hin. by apply elem_of_nil in Hin. }
  destruct (flushWt_lock _ _ _ _ _ Hl H0) as [_ H1]. exact H1.
Qed.

Section KeepsLocks.
Hypothesis keeps : keepsLocks run.

Lemma exec_keeps_lock cmd cwd w p :
  cmd <> removeCmd p -> locked w p -> locked (snd (exec run cmd cwd w)) p.
Proof. intros Hne Hl. rewrite snd_exec. by apply keeps. Qed.

Lemma Ran_keeps_lock w w' p :
  Ran run isQuery w w' -> locked w p -> locked w' p.
Proof.
  induction 1 as [|w cmd cwd w' Hok _ IH]; [auto|].
  intros Hl. apply IH. apply keeps; [by apply query_not_remove|exact Hl].
Qed.

Lemma isMergedInto_keeps_lock base wt w p :
  locked w p -> locked (snd (isMergedInto run baseDir base wt w)) p.
Proof.
  intros Hl. unfold isMergedInto, bind.
  pose proof (exec_keeps_lock ("git branch --merged origin/" +:+ base) baseDir w p) as H1.
  destruct (exec run ("git branch --merged origin/" +:+ base) baseDir w)
    as [[out|e] w1]; cbn [snd] in *.
  - assert (Hl1 : locked w1 p) by (apply H1; [unfold removeCmd; simpl; discriminate|exact Hl]).
    destruct (Js.arrayIncludes (branch wt) (branchNames out)); [exact Hl1|].
    pose proof (exec_keeps_lock ("git branch --merged " +:+ base) baseDir w1 p) as H2.
    destruct (exec run ("git branch --merged " +:+ base) baseDir w1)
      as [[out2|e2] w2]; cbn [snd] in *;
      apply H2; [unfold removeCmd; simpl; discriminate|exact Hl1
                |unfold removeCmd; simpl; discriminate|exact Hl1].
  - apply H1; [unfold removeCmd; simpl; discriminate|exact Hl].
Qed.

Lemma append_inj_l (s a b : string) : s +:+ a = s +:+ b -> a = b.
Proof. induction s as [|c s IH]; simpl; intros H; [exact H|]. injection H as H. auto. Qed.

Lemma removeCmd_ne p q : p <> q -> removeCmd p <> removeCmd q.
Proof. intros Hne H. apply Hne. unfold removeCmd in H. by apply append_inj_l in H. Qed.

Lemma attempt_keeps_lock base wt w p :
  locked w p -> locked (afterAttempt run baseDir base wt w) p.
Proof.
  intros Hl. unfold afterAttempt. rewrite gcStep_unfold.
  pose proof (isMergedInto_keeps_lock base wt w p Hl) as H1.
  destruct (isMergedInto run baseDir base wt w) as [[[|]|e] w1]; cbn [snd] in *;
    [|exact H1..].
  destruct (wtClean wt); [|exact H1].
  destruct (truthy (lockOf (disk w1) (path wt))) eqn:Hfree; [exact H1|].
  assert (Hne : path wt <> p).
  { intros Heq. rewrite Heq in Hfree. unfold locked in H1. congruence. }
  pose proof (exec_keeps_lock (removeCmd (path wt)) baseDir w1 p
                (removeCmd_ne _ _ Hne) H1) as H2.
  destruct (exec run (removeCmd (path wt)) baseDir w1) as [[o1|e1] w2];
    cbn [snd] in *; [|exact H2].
  assert (Hd : deleteCmd (branch wt) <> removeCmd p)
    by (unfold deleteCmd, removeCmd; simpl; discriminate).
  pose proof (exec_keeps_lock (deleteCmd (branch wt)) baseDir w2 p Hd H2) as H3.
  destruct (exec run (deleteCmd (branch wt)) baseDir w2) as [[o2|e2] w3];
    cbn [snd] in *; exact H3.
Qed.

(** Every removed branch is that of a listed worktree found clean whose
    directory had no lock owner when the loop began. *)
Lemma gcRun_unlocked base wts w rs :
  gcRun run baseDir base wts w rs ->
  forall b, b ∈ rs ->
  exists wt, wt ∈ wts /\ branch wt = b /\ wtClean wt = true /\
             truthy (lockOf (disk w) (path wt)) = false.
Proof.
  induction 1 as [w|wt wts w rs Hok _ IH|wt wts w rs Hno _ IH]; intros b Hb.
  - by apply elem_of_nil in Hb.
  - apply elem_of_cons in Hb as [->|Hb].
    + exists wt. split; [left|]. split; [reflexivity|].
      destruct Hok as (w1 & o1 & w2 & o2 & w3 & Hm & Hc & Hfree & _).
      split; [exact Hc|].
      destruct (truthy (lockOf (disk w) (path wt))) eqn:Hl; [|reflexivity].
      pose proof (isMergedInto_keeps_lock base wt w (path wt) Hl) as H1.
      rewrite Hm in H1. cbn [snd] in H1. unfold locked in H1. congruence.
    + destruct (IH b Hb) as (wt' & Hin & Hbr & Hc & Hfree).
      exists wt'. split; [by right|]. split; [exact Hbr|]. split; [exact Hc|].
      destruct (truthy (lockOf (disk w) (path wt'))) eqn:Hl; [|reflexivity].
      pose proof (attempt_keeps_lock base wt w (path wt') Hl) as H1.
      unfold locked in H1. congruence.
  - destruct (IH b Hb) as (wt' & Hin & Hbr & Hc & Hfree).
    exists wt'. split; [by right|]. split; [exact Hbr|]. split; [exact Hc|].
    destruct (truthy (lockOf (disk w) (path wt'))) eqn:Hl; [|reflexivity].
    pose proof (attempt_keeps_lock base wt w (path wt') Hl) as H1.
    unfold locked in H1. congruence.
Qed.

End KeepsLocks.

(** What holds of [gc] whatever the merge check answers: once the registry
    has answered, [gc] returns, whatever commands fail while it goes through
    the worktrees; the branches it returns are,
    in order, those of the worktrees whose removal succeeded (merged, found
    clean, without lock owner, both removal commands successful), each
    failed or ineligible worktree being skipped; and, the listed branches
    being distinct, the branch of a worktree found not clean is not
    returned, nor, when no command but its own removal unlocks a directory,
    the branch of a worktree that is locked when [gc] starts or is listed
    as locked. *)
Theorem gc_best_effort base w wts w1 :
  listWorktrees run baseDir w = (Ok wts, w1) ->
  exists removed w',
    gc run baseDir base w = (Ok removed, w') /\
    gcRun run baseDir base wts (afterFetch run baseDir base w1) removed /\
    (NoDup (map branch wts) ->
     forall wt, wt ∈ wts -> wtClean wt = false -> branch wt ∉ removed) /\
    (keepsLocks run ->
     NoDup (map branch wts) ->
     forall wt, wt ∈ wts ->
       truthy (lockOf (disk w) (path wt)) = true \/ truthy (lockedBy wt) = true ->
       branch wt ∉ removed).
Proof.
  intros Hl. destruct (gc_run run baseDir base w wts w1 Hl) as (removed & w' & Hgc & Hrun).
  exists removed, w'. split; [exact Hgc|]. split; [exact Hrun|]. split.
  - intros Hnd wt Hin Hdirty Hb.
    destruct (gcRun_origin run baseDir base wts _ removed Hrun _ Hb)
      as (wt' & Hin' & Hbr & Hc).
    assert (wt' = wt) by (eapply (NoDup_map_eq branch); eauto). subst wt'. congruence.
  - intros Hkeeps Hnd wt Hin Hlocked Hb.
    destruct (gcRun_unlocked Hkeeps base wts _ removed Hrun _ Hb)
      as (wt' & Hin' & Hbr & _ & Hfree).
    assert (wt' = wt) by (eapply (NoDup_map_eq branch); eauto). subst wt'.
    assert (H1 : locked w1 (path wt)).
    { destruct Hlocked as [H0|H0].
      - eapply Ran_keeps_lock; [exact Hkeeps|eapply listWorktrees_Ok_Ran; eauto|exact H0].
      - destruct (listWorktrees_lock w wts w1 Hl wt Hin) as (wk & Hr & Hlk).
        eapply Ran_keeps_lock; [exact Hkeeps|exact Hr|]. unfold locked. rewrite <- Hlk. exact H0. }
    assert (H2 : locked (afterFetch run baseDir base w1) (path wt)).
    { unfold afterFetch. apply Hkeeps; [|exact H1].
      unfold fetchCmd, removeCmd. simpl. discriminate. }
    unfold locked in H2. congruence.
Qed.

End GcClaims.

(* ===================================================================== *)
(** * The lock manager on the demo repository *)
(* ===================================================================== *)

Lemma lock_erases_other_fields_witness :
  exists w',
    lockWorktree Demo.base "feat/a" "agentA" "t1" Demo.busy = (Ok tt, w') /\
    fieldOf (disk Demo.busy) Demo.pathA "port" = Some (JNum 8000) /\
    fieldOf (disk w') Demo.pathA "port" = None.
Proof.
  destruct (lock_erases_other_fields Demo.base "feat/a" "agentA" "t1" Demo.busy)
    as (w' & Hrun & _ & _ & Hport & _).
  - vm_compute. eauto.
  - vm_compute. reflexivity.
  - exists w'. split; [exact Hrun|]. split; [vm_compute; reflexivity|exact Hport].
Defined.

(** C7, as stated, fails for the empty agent identifier: the lock it writes
    is falsy, so the next agent's lock succeeds and takes the worktree. *)
Lemma lock_conflict_missed_for_empty_owner :
  exists w1 w2,
    lockWorktree Demo.base "feat/a" EmptyString "t0" Demo.fresh = (Ok tt, w1) /\
    lockWorktree Demo.base "feat/a" "agentB" "t1" w1 = (Ok tt, w2) /\
    lockOf (disk w2) Demo.pathA = Some (JStr "agentB") /\
    (forall owner,
       lockWorktree Demo.base "feat/a" "agentB" "t1" w1 <> (Throw (LockConflict owner), w1)).
Proof.
  eexists. eexists. split; [vm_compute; reflexivity|].
  split; [vm_compute; reflexivity|].
  split; [vm_compute; reflexivity|].
  intros owner. vm_compute. discriminate.
Qed.

Lemma lock_refuses_other_owner_witness :
  exists w1,
    lockWorktree Demo.base "feat/a" "agentA" "t0" Demo.fresh = (Ok tt, w1) /\
    lockWorktree Demo.base "feat/a" "agentB" "t1" w1
      = (Throw (LockConflict (Some (JStr "agentA"))), w1) /\
    lockOf (disk w1) Demo.pathA = Some (JStr "agentA").
Proof.
  eexists. split; [vm_compute; reflexivity|].
  apply (proj2 (lock_refuses_other_owner Demo.base "feat/a" "agentA" "agentB" "t0" "t1" Demo.fresh)).
  - vm_compute. reflexivity.
  - discriminate.
  - discriminate.
Defined.

(** C8, as stated, fails on a worktree whose metadata file does not parse:
    [handoff] reads the file without a [try], so the hand-over throws the
    parse error and the file stays as it is. *)
Lemma handoff_fails_on_unparseable_metadata :
  is_Some (disk Demo.broken !! getWorktreeDir Demo.base "feat/a") /\
  handoff Demo.base "feat/a" "agentB" "t1" Demo.broken = (Throw SyntaxError, Demo.broken) /\
  (forall w', handoff Demo.base "feat/a" "agentB" "t1" Demo.broken <> (Ok tt, w')).
Proof.
  split; [vm_compute; eauto|]. split; [vm_compute; reflexivity|].
  intros w'. vm_compute. discriminate.
Qed.

Lemma handoff_overrides_any_owner_witness :
  exists w',
    handoff Demo.base "feat/a" "agentB" "t1" Demo.busy = (Ok tt, w') /\
    lockOf (disk Demo.busy) Demo.pathA = Some (JStr "agentA") /\
    fieldOf (disk w') Demo.pathA "lockedBy" = Some (JStr "agentB") /\
    fieldOf (disk w') Demo.pathA "port" = Some (JNum 8000).
Proof.
  destruct (proj1 (handoff_overrides_any_owner Demo.base "feat/a" "agentB" "t1" Demo.busy))
    as (w' & Hrun & Hlock & _ & Hframe).
  - vm_compute. eauto.
  - vm_compute. discriminate.
  - exists w'. split; [exact Hrun|]. split; [vm_compute; reflexivity|].
    split; [exact Hlock|]. rewrite Hframe by discriminate. vm_compute. reflexivity.
Defined.

(** C2 fails on the code: [unlockWorktree] by the owner removes the whole
    metadata file, so the port lease, the context and the checkpoint recorded
    in it are lost with the lock. *)
Theorem unlock_deletes_whole_document :
  exists w',
    unlockWorktree Demo.base "feat/a" "agentA" false Demo.busy = (Ok tt, w') /\
    fieldOf (disk Demo.busy) Demo.pathA "port" = Some (JNum 8000) /\
    fieldOf (disk Demo.busy) Demo.pathA "context" = Some (JStr "Goal: fix UI") /\
    fieldOf (disk Demo.busy) Demo.pathA "checkpointBase" = Some (JStr "c0ffee") /\
    metaOf (disk w') Demo.pathA = None /\
    fieldOf (disk w') Demo.pathA "port" = None /\
    fieldOf (disk w') Demo.pathA "context" = None /\
    fieldOf (disk w') Demo.pathA "checkpointBase" = None.
Proof.
  eexists. split; [vm_compute; reflexivity|].
  repeat split; vm_compute; reflexivity.
Qed.

(** C1 fails on the code: with [checkpointBase] recorded as [c0ffee] and a
    reset that succeeds, [checkpointRestore] resets to [c0ffee] and clears
    both checkpoint fields, but the [restoredTo] it returns is [undefined]:
    it is read after [checkpointBase] was deleted. *)
Theorem restore_returns_undefined :
  exists w',
    fieldOf (disk Demo.busy) Demo.pathA "checkpointBase" = Some (JStr "c0ffee") /\
    checkpointRestore Demo.quiet Demo.base "feat/a" Demo.busy = (Ok None, w') /\
    vcs w' = [("git reset --hard c0ffee", Demo.pathA)] /\
    fieldOf (disk w') Demo.pathA "checkpointBase" = None /\
    fieldOf (disk w') Demo.pathA "lastCheckpoint" = None /\
    fieldOf (disk w') Demo.pathA "port" = Some (JNum 8000).
Proof.
  eexists. split; [vm_compute; reflexivity|].
  split; [vm_compute; reflexivity|].
  repeat split; vm_compute; reflexivity.
Qed.

(* ===================================================================== *)
(** * The port allocator on the demo repository *)
(* ===================================================================== *)

Lemma demo_git_query (cmd cwd : string) (w : World Demo.Log) :
  isQuery cmd = true -> disk (snd (Demo.git cmd cwd w)) = disk w.
Proof. reflexivity. Qed.

Lemma demo_listing_entries :
  listedEntries (Js.trim Demo.listing) =
  [(Demo.pathA, "feat/a"); (Demo.pathB, "feat/b")].
Proof. vm_compute. reflexivity. Qed.

Lemma demo_always_listed (p : string) :
  p = Demo.pathA \/ p = Demo.pathB -> alwaysListed Demo.git Demo.base p.
Proof.
  intros Hp w. exists Demo.listing. split; [reflexivity|].
  rewrite demo_listing_entries. apply list_elem_of_In. simpl.
  destruct Hp as [->| ->]; auto.
Qed.

(** C5: the scan that collects the used ports goes over the registry's
    listing, and a worktree whose HEAD is detached is printed without a
    branch line and dropped by [listWorktrees]. The port recorded in its
    metadata is then not collected, and the next request, for another
    worktree, gets the same port: two worktrees hold port 8000, and two
    requests made one after the other return equal ports. *)
Lemma port_of_unlisted_worktree_handed_out :
  exists w1 w2,
    portRequest Demo.gitDetached Demo.base "feat/a" Demo.two = (Ok 8000, w1) /\
    fieldOf (disk w1) Demo.pathA "port" = Some (JNum 8000) /\
    portRequest Demo.gitDetached Demo.base "feat/b" w1 = (Ok 8000, w2) /\
    fieldOf (disk w2) Demo.pathA "port" = Some (JNum 8000) /\
    fieldOf (disk w2) Demo.pathB "port" = Some (JNum 8000) /\
    requestAll Demo.gitDetached Demo.base ["feat/a"; "feat/b"] Demo.two
      = (Ok [8000; 8000], w2).
Proof.
  eexists. eexists. split; [vm_compute; reflexivity|].
  split; [vm_compute; reflexivity|].
  split; [vm_compute; reflexivity|].
  repeat split; vm_compute; reflexivity.
Qed.


Lemma port_lease_allocation_witness :
  (exists w', portRequest Demo.git Demo.base "feat/a" Demo.two = (Ok 8000, w')) /\
  (exists w', requestAll Demo.git Demo.base ["feat/a"; "feat/b"] Demo.two
              = (Ok [8000; 8001], w')) /\
  NoDup [8000; 8001].
Proof.
  pose proof (port_lease_allocation Demo.git Demo.base demo_git_query)
    as (Hfirst & Hpool & Hdistinct & Hreuse).
  split; [|split].
  - assert (Hl : listWorktrees Demo.git Demo.base Demo.two =
                 (Ok Demo.wtsAB, snd (listWorktrees Demo.git Demo.base Demo.two)))
      by (vm_compute; reflexivity).
    assert (Hs : is_Some (disk Demo.two !! getWorktreeDir Demo.base "feat/a"))
      by (vm_compute; eauto).
    assert (Hc : metaOf (disk Demo.two) (getWorktreeDir Demo.base "feat/a") <> Some Corrupt)
      by (vm_compute; discriminate).
    eexists. eapply proj1.
    eapply (proj1 (Hfirst "feat/a" Demo.two Demo.wtsAB _ Hs Hc Hl)).
    + unfold PORT_MIN, PORT_MAX. lia.
    + intros (wt & Hin & Hf). apply list_elem_of_In in Hin. simpl in Hin.
      destruct Hin as [<-|[<-|[]]]; vm_compute in Hf; discriminate.
    + intros m Hm. unfold PORT_MIN in Hm. lia.
  - eexists. vm_compute. reflexivity.
  - apply (Hdistinct ["feat/a"; "feat/b"] Demo.two [8000; 8001]
             (snd (requestAll Demo.git Demo.base ["feat/a"; "feat/b"] Demo.two))).
    + vm_compute. apply NoDup_cons. split; [|apply NoDup_singleton].
      intros Hin. apply list_elem_of_singleton in Hin. discriminate.
    + intros f Hf. apply demo_always_listed. apply list_elem_of_In in Hf. simpl in Hf.
      destruct Hf as [<-|[<-|[]]]; [left|right]; reflexivity.
    + vm_compute. reflexivity.
Defined.


(* ===================================================================== *)
(** * The garbage collector on the demo repository *)
(* ===================================================================== *)

Lemma demo_gitGc_keeps_locks : keepsLocks Demo.gitGc.
Proof.
  intros cmd cwd w p Hne Hl. unfold Demo.gitGc.
  destruct (String.eqb cmd LIST_CMD); [exact Hl|].
  destruct (String.eqb cmd "git fetch origin main"); [exact Hl|].
  destruct (String.eqb cmd "git branch --merged origin/main"); [exact Hl|].
  destruct (String.eqb cmd ("git worktree remove " +:+ Demo.pathA)) eqn:E; [|exact Hl].
  apply String.eqb_eq in E. cbn [snd disk Demo.logged].
  assert (Hp : Demo.pathA <> p) by (intros <-; apply Hne; exact E).
  unfold lockOf, fieldOf, docOf, metaOf in *. rewrite lookup_delete_ne by exact Hp.
  exact Hl.
Qed.

Lemma gc_best_effort_witness :
  exists w',
    gc Demo.gitGc Demo.base "main" Demo.gcWorld = (Ok ["feat/a"], w') /\
    lockOf (disk Demo.gcWorld) Demo.pathB = Some (JStr "agentB") /\
    "feat/b" ∉ ["feat/a"].
Proof.
  assert (Hl : listWorktrees Demo.gitGc Demo.base Demo.gcWorld =
               (Ok Demo.wtsGc, snd (listWorktrees Demo.gitGc Demo.base Demo.gcWorld)))
    by (vm_compute; reflexivity).
  destruct (gc_best_effort Demo.gitGc Demo.base "main" Demo.gcWorld Demo.wtsGc _ Hl)
    as (removed & w' & Hgc & _ & _ & Hlocked).
  assert (Hrem : removed = ["feat/a"]).
  { assert (Hc : fst (gc Demo.gitGc Demo.base "main" Demo.gcWorld) = Ok ["feat/a"])
      by (vm_compute; reflexivity).
    rewrite Hgc in Hc. cbn [fst] in Hc. congruence. }
  subst removed. exists w'. split; [exact Hgc|]. split; [vm_compute; reflexivity|].
  apply (Hlocked demo_gitGc_keeps_locks) with
    (wt := {| path := Demo.pathB; branch := "feat/b"; wtClean := true;
              lockedBy := Some (JStr "agentB") |}).
  - vm_compute. apply NoDup_cons. split; [|apply NoDup_singleton].
    intros Hin. apply list_elem_of_singleton in Hin. discriminate.
  - apply list_elem_of_further, list_elem_of_here.
  - left. vm_compute. reflexivity.
Defined.

(* ===================================================================== *)
(** * The garbage collector on the merged-branch list of git *)
(* ===================================================================== *)

(** C6: the worktrees of [feat/a] and [feat/b] are clean and unlocked, both
    branches are contained in the merged-branch list, and every command
    succeeds; but git marks a branch that is checked out in a linked worktree
    with [+], and [gc] strips only the [*] of the current branch, so it finds
    neither branch in the list: it removes nothing and returns the empty
    list. On the same list without the [+] markers it removes both. *)
Theorem gc_misses_branches_marked_by_git :
  inMergedList DemoWt.mergedListing "feat/a" = true /\
  inMergedList DemoWt.mergedListing "feat/b" = true /\
  fst (listWorktrees DemoWt.git Demo.base Demo.two) = Ok Demo.wtsAB /\
  Js.arrayIncludes "feat/a" (branchNames (Js.trim DemoWt.mergedListing)) = false /\
  (exists w',
     gc DemoWt.git Demo.base "main" Demo.two = (Ok [], w') /\
     disk w' = disk Demo.two) /\
  (exists w',
     gc (DemoWt.gitWith DemoWt.unmarkedListing) Demo.base "main" Demo.two
       = (Ok ["feat/a"; "feat/b"], w') /\
     disk w' = ∅).
Proof.
  split; [vm_compute; reflexivity|]. split; [vm_compute; reflexivity|].
  split; [vm_compute; reflexivity|]. split; [vm_compute; reflexivity|]. split.
  - exists (snd (gc DemoWt.git Demo.base "main" Demo.two)).
    split; vm_compute; reflexivity.
  - exists (snd (gc (DemoWt.gitWith DemoWt.unmarkedListing) Demo.base "main" Demo.two)).
    split; vm_compute; reflexivity.
Qed.

(* ===================================================================== *)
(** * The status of a worktree on the demo repository *)
(* ===================================================================== *)

(** [status] splits the output that [exec] has trimmed: when the first entry
    has a blank first status character, the entry reaches the parser shifted
    by one, and its path loses its first character. *)
Lemma status_first_entry_shifted :
  let run := fun (cmd cwd : string) (w : World Demo.Log) =>
               (Exit0 (Demo.unlines [" M other.txt"; "?? new.txt"]), w) in
  fst (status run Demo.base "feat/a" Demo.fresh) =
  Ok {| isClean := false; conflicts := []; modified := ["ther.txt"];
        added := ["new.txt"]; deleted := [] |}.
Proof. vm_compute. reflexivity. Qed.

(* ===================================================================== *)
(** * The parser on blank and internal entries *)
(* ===================================================================== *)

Lemma parse_flag_iff_no_entry_witness :
  isClean (parse [EmptyString; "?? metadata.json"]) = true /\
  conflicts (parse [EmptyString; "?? metadata.json"]) = [].
Proof.
  destruct (parse_flag_iff_no_entry [EmptyString; "?? metadata.json"]) as (Hiff & Himp & _).
  assert (H : isClean (parse [EmptyString; "?? metadata.json"]) = true)
    by (apply Hiff; reflexivity).
  split; [exact H|]. apply (Himp H).
Defined.

(* ===================================================================== *)
(** * The service on small inputs *)
(* ===================================================================== *)

Example getWorktreeDir_feature_x :
  getWorktreeDir Demo.base "feature/x" = "/repo/.worktrees/feature-x".
Proof. reflexivity. Qed.

Example getWorktreeDir_strips :
  getWorktreeDir Demo.base "fix\bug #12 (v1.0)" = "/repo/.worktrees/fix-bug12v10".
Proof. reflexivity. Qed.

Example trim_example :
  Js.trim (String Js.LF "  a b " +:+ NL) = "a b".
Proof. reflexivity. Qed.

Example splitLines_example :
  Js.splitLines ("a" +:+ String Js.CR NL +:+ "b" +:+ NL) = ["a"; "b"; EmptyString].
Proof. reflexivity. Qed.

Example upsertPort_empty :
  upsertPort EmptyString 8000 = "PORT=8000" +:+ NL.
Proof. vm_compute. reflexivity. Qed.

Example upsertPort_replaces :
  upsertPort (Demo.unlines ["FOO=1"; "PORT=3000"; "BAR=2"]) 8001
  = Demo.unlines ["FOO=1"; "PORT=8001"; "BAR=2"] +:+ NL.
Proof. vm_compute. reflexivity. Qed.

Example upsertPort_appends :
  upsertPort (Demo.unlines ["FOO=1"; "XPORT=3000"]) 8001
  = Demo.unlines ["FOO=1"; "XPORT=3000"; "PORT=8001"] +:+ NL.
Proof. vm_compute. reflexivity. Qed.

(** The listing of the demo repository, as the registry returns it. *)
Example listWorktrees_demo :
  fst (listWorktrees Demo.git Demo.base Demo.two) = Ok Demo.wtsAB.
Proof. vm_compute. reflexivity. Qed.

(** Lock, then unlock by the owner: the worktree is unlocked. *)
Example lock_then_unlock :
  exists w1 w2,
    lockWorktree Demo.base "feat/a" "agentA" "t0" Demo.fresh = (Ok tt, w1) /\
    unlockWorktree Demo.base "feat/a" "agentA" false w1 = (Ok tt, w2) /\
    lockOf (disk w2) Demo.pathA = None.
Proof.
  eexists. eexists. split; [vm_compute; reflexivity|].
  split; vm_compute; reflexivity.
Qed.

(** Lock by [agentA]; unlock by [agentB] without force fails; handoff to
    [agentB] succeeds; unlock by [agentB] then succeeds. *)
Example handoff_scenario :
  exists w1 w2 w3,
    lockWorktree Demo.base "feat/a" "agentA" "t0" Demo.fresh = (Ok tt, w1) /\
    unlockWorktree Demo.base "feat/a" "agentB" false w1
      = (Throw (LockedByAnother (Some (JStr "agentA"))), w1) /\
    handoff Demo.base "feat/a" "agentB" "t1" w1 = (Ok tt, w2) /\
    unlockWorktree Demo.base "feat/a" "agentB" false w2 = (Ok tt, w3) /\
    lockOf (disk w3) Demo.pathA = None.
Proof.
  eexists. eexists. eexists. split; [vm_compute; reflexivity|].
  split; [vm_compute; reflexivity|].
  split; [vm_compute; reflexivity|].
  split; vm_compute; reflexivity.
Qed.

(** Locking a worktree that holds a port lease loses the lease: the next
    request, for another worktree, gets the same port. *)
Example lock_drops_port_lease :
  exists w1 w2 w3,
    portRequest Demo.git Demo.base "feat/a" Demo.two = (Ok 8000, w1) /\
    lockWorktree Demo.base "feat/a" "agentA" "t0" w1 = (Ok tt, w2) /\
    portRequest Demo.git Demo.base "feat/b" w2 = (Ok 8000, w3).
Proof.
  eexists. eexists. eexists. split; [vm_compute; reflexivity|].
  split; vm_compute; reflexivity.
Qed.

(* ===================================================================== *)
(** * Worktree paths *)
(* ===================================================================== *)

Section PathFacts.

Lemma allowed_not_separator c : isAllowed c = true -> isSeparator c = false.
Proof.
  destruct c as [[] [] [] [] [] [] [] []]; vm_compute; congruence.
Qed.

Lemma stripDisallowed_allowed s :
  forallb isAllowed (list_ascii_of_string (stripDisallowed s)) = true.
Proof.
  induction s as [|c s IH]; [reflexivity|]. cbn [stripDisallowed].
  destruct (isAllowed c) eqn:E; [|exact IH]. cbn. rewrite E. exact IH.
Qed.

Lemma normalise_fixed s :
  forallb isAllowed (list_ascii_of_string s) = true ->
  stripDisallowed (replaceSeparators s) = s.
Proof.
  induction s as [|c s IH]; [reflexivity|]. cbn. intros H.
  apply andb_true_iff in H as [Hc Hs].
  rewrite (allowed_not_separator c Hc), Hc, (IH Hs). reflexivity.
Qed.

Lemma separator_dash_allowed c :
  isAllowed (if isSeparator c then "-"%char else c) = isSeparator c || isAllowed c.
Proof.
  destruct (isSeparator c) eqn:E; [reflexivity|reflexivity].
Qed.

Lemma replaceSeparators_twice s :
  replaceSeparators (replaceSeparators s) = replaceSeparators s.
Proof.
  induction s as [|c s IH]; [reflexivity|]. cbn. rewrite IH.
  destruct (isSeparator c) eqn:E; [reflexivity|]. rewrite E. reflexivity.
Qed.

Lemma includes_app_r p a b : Js.includes p b = true -> Js.includes p (a +:+ b) = true.
Proof.
  intros H. induction a as [|c a IH]; [exact H|].
  change (String.prefix p (String c (a +:+ b)) || Js.includes p (a +:+ b) = true).
  rewrite IH. apply orb_true_r.
Qed.

Lemma prefix_app p b : String.prefix p (p +:+ b) = true.
Proof.
  induction p as [|c p IH]; [destruct b; reflexivity|].
  simpl. destruct (ascii_dec c c); [exact IH|congruence].
Qed.

Lemma includes_prefix p s : String.prefix p s = true -> Js.includes p s = true.
Proof. intros H. destruct s; cbn [Js.includes]; rewrite H; reflexivity. Qed.

Lemma includes_app_l p b : Js.includes p (p +:+ b) = true.
Proof. apply includes_prefix, prefix_app. Qed.

Lemma append_assoc (a b c : string) : (a +:+ b) +:+ c = a +:+ (b +:+ c).
Proof.
  induction a as [|x a IH]; [reflexivity|].
  change (String x ((a +:+ b) +:+ c) = String x (a +:+ (b +:+ c))). by rewrite IH.
Qed.

End PathFacts.

(** X1: the directory name that [getWorktreeDir] derives from a feature holds
    only ASCII letters, digits and [-]; deriving it again from that name, or
    from the feature with its separators already replaced by [-], gives the
    same directory, so features that differ only in such characters share one
    worktree directory. *)
Theorem getWorktreeDir_normal_form (baseDir feature : string) :
  let name := stripDisallowed (replaceSeparators feature) in
  forallb isAllowed (list_ascii_of_string name) = true /\
  getWorktreeDir baseDir name = getWorktreeDir baseDir feature /\
  getWorktreeDir baseDir (replaceSeparators feature) = getWorktreeDir baseDir feature.
Proof.
  intros name. split; [apply stripDisallowed_allowed|]. split.
  - unfold getWorktreeDir. fold name.
    rewrite (normalise_fixed name (stripDisallowed_allowed _)). reflexivity.
  - unfold getWorktreeDir. rewrite replaceSeparators_twice. reflexivity.
Qed.

(** X2: whatever the base directory and the feature, the path of
    [getWorktreeDir] contains [.worktrees], the text by which
    [listWorktrees] recognises the managed worktrees, so the guard of
    [listWorktrees] keeps it: an entry of the listing with this path and a
    non-empty branch is never dropped. *)
Theorem getWorktreeDir_passes_guard (baseDir feature b : string) :
  b <> EmptyString ->
  Js.includes ".worktrees" (getWorktreeDir baseDir feature) = true /\
  readyWt {| p_path := Some (getWorktreeDir baseDir feature); p_branch := Some b |}
    = Some (getWorktreeDir baseDir feature, b).
Proof.
  intros Hb.
  assert (Hinc : Js.includes ".worktrees" (getWorktreeDir baseDir feature) = true).
  { unfold getWorktreeDir, pathJoin. cbn [Js.is_empty].
    destruct (Js.is_empty (stripDisallowed (replaceSeparators feature))).
    - apply includes_app_r, includes_app_r. reflexivity.
    - rewrite !append_assoc. apply includes_app_r, includes_app_r.
      apply (includes_app_l ".worktrees"). }
  split; [exact Hinc|].
  unfold readyWt. cbn [p_path p_branch]. rewrite Hinc.
  assert (Hp : Js.is_empty (getWorktreeDir baseDir feature) = false).
  { destruct (getWorktreeDir baseDir feature); [discriminate Hinc|reflexivity]. }
  unfold truthyStr. rewrite Hp, (is_empty_false _ Hb). reflexivity.
Qed.

(* ===================================================================== *)
(** * More on the registry, the cleanliness check and the status *)
(* ===================================================================== *)

Section RegistryMore.
Context {Vcs : Type}.
Variable run : string -> string -> World Vcs -> Outcome * World Vcs.
Variable baseDir : string.
Implicit Types (w : World Vcs).






Lemma filter_length_0 {A} (f : A -> bool) (l : list A) :
  Nat.eqb (List.length (List.filter f l)) 0 = true <-> forall x, In x l -> f x = false.
Proof.
  induction l as [|a l IH]; cbn [List.filter].
  - split; [intros _ x []|reflexivity].
  - destruct (f a) eqn:E.
    + split; [discriminate|]. intros H. rewrite (H a) in E by (left; reflexivity). discriminate.
    + rewrite IH. split.
      * intros H x [<-|Hx]; auto.
      * intros H x Hx. apply H. by right.
Qed.

Lemma keepLine_false line :
  keepLine line = false <->
  Js.trim line = EmptyString \/ Js.includes "metadata.json" line = true.
Proof.
  unfold keepLine. rewrite andb_false_iff, !negb_false_iff. split.
  - intros [H|H]; [left|right; exact H]. destruct (Js.trim line); [reflexivity|discriminate].
  - intros [H|H]; [left|right; exact H]. rewrite H. reflexivity.
Qed.

(** X4: [isClean] never throws; it answers [true] exactly when the status
    command succeeds and every line of its trimmed output is blank or
    contains [metadata.json], and [false] in particular whenever the command
    fails. *)
Theorem isClean_never_throws (p : string) w :
  exists b,
    isCleanAt run p w = (Ok b, snd (run STATUS_CMD p w)) /\
    (b = true <->
     exists out,
       fst (run STATUS_CMD p w) = Exit0 out /\
       forall line, In line (Js.splitLines (Js.trim out)) ->
         Js.trim line = EmptyString \/ Js.includes "metadata.json" line = true).
Proof.
  rewrite isCleanAt_run. eexists. split; [reflexivity|].
  destruct (run STATUS_CMD p w) as [[out|msg] w']; cbn [fst cleanOf].
  - rewrite filter_length_0. split.
    + intros H. exists out. split; [reflexivity|]. intros line Hl.
      apply keepLine_false, H, Hl.
    + intros (out' & Ho & H). inversion Ho; subst out'. intros line Hl.
      apply keepLine_false, H, Hl.
  - split; [discriminate|]. intros (out & Ho & _). discriminate.
Qed.

(** X5: on an existing worktree [status] and [isClean] run the same command
    and agree: when it succeeds, [status] returns the parse of the trimmed
    output and [isClean] returns that result's flag; when it fails, [status]
    throws the failure wrapped as a status error while [isClean] answers
    [false]. *)
Theorem status_agrees_with_isClean (feature : string) w :
  let p := getWorktreeDir baseDir feature in
  is_Some (disk w !! p) ->
  match run STATUS_CMD p w with
  | (Exit0 out, w') =>
      status run baseDir feature w = (Ok (parse (Js.splitLines (Js.trim out))), w') /\
      isCleanAt run p w = (Ok (isClean (parse (Js.splitLines (Js.trim out)))), w')
  | (Failed msg, w') =>
      status run baseDir feature w = (Throw (StatusFailed (CommandFailure msg)), w') /\
      isCleanAt run p w = (Ok false, w')
  end.
Proof.
  intros p [dir H]. rewrite isCleanAt_run.
  unfold status, bind. fold p. rewrite (existsSync_Some _ _ _ H). cbn [negb].
  unfold tryCatch, bind, exec.
  destruct (run STATUS_CMD p w) as [[out|msg] w']; split; reflexivity.
Qed.

End RegistryMore.

Lemma filesIn_length k lines :
  List.length (filesIn k lines) = List.length (List.filter (inBucket k) lines).
Proof. unfold filesIn. apply length_map. Qed.

Lemma filter_length_cons {A} (f : A -> bool) (x : A) (l : list A) :
  List.length (List.filter f (x :: l)) =
  ((if f x then 1 else 0) + List.length (List.filter f l))%nat.
Proof. cbn [List.filter]. destruct (f x); reflexivity. Qed.

Lemma bucket_count line :
  ((if inBucket Conflict line then 1 else 0) + (if inBucket Modified line then 1 else 0) +
   (if inBucket Added line then 1 else 0) + (if inBucket Deleted line then 1 else 0) =
   if bool_decide (is_Some (bucketOfCode (codeOf line))) then 1 else 0)%nat.
Proof.
  unfold inBucket. destruct (bucketOfCode (codeOf line)) as [[]|]; cbn [bucket_eqb].
  1-4: rewrite bool_decide_eq_true_2 by eauto; reflexivity.
  rewrite bool_decide_eq_false_2 by (intros [x Hx]; discriminate). reflexivity.
Qed.

(** X6: no status entry is counted twice: the four lists of [parse] together
    hold exactly one path for each kept line whose code has a bucket, so
    never more paths than kept lines. *)
Theorem parse_lists_partition (raw : list string) :
  let kept := List.filter keepLine raw in
  let classified :=
    List.filter (fun line => bool_decide (is_Some (bucketOfCode (codeOf line)))) kept in
  (List.length (conflicts (parse raw)) + List.length (modified (parse raw)) +
   List.length (added (parse raw)) + List.length (deleted (parse raw)) =
   List.length classified)%nat /\
  (List.length classified <= List.length kept)%nat.
Proof.
  intros kept classified. split.
  - destruct (parse_lists raw) as (-> & -> & -> & ->). fold kept.
    rewrite !filesIn_length. unfold classified. clear classified.
    induction kept as [|line kept IH]; [reflexivity|].
    rewrite !filter_length_cons. pose proof (bucket_count line). lia.
  - unfold classified. apply filter_length_le.
Qed.


Lemma status_agrees_with_isClean_witness :
  status Demo.quiet Demo.base "feat/a" Demo.fresh =
    (Ok (parse (Js.splitLines (Js.trim EmptyString))),
     Demo.logged STATUS_CMD Demo.pathA Demo.fresh) /\
  isCleanAt Demo.quiet Demo.pathA Demo.fresh =
    (Ok (isClean (parse (Js.splitLines (Js.trim EmptyString)))),
     Demo.logged STATUS_CMD Demo.pathA Demo.fresh).
Proof.
  apply (status_agrees_with_isClean Demo.quiet Demo.base "feat/a" Demo.fresh).
  vm_compute. eauto.
Defined.

Lemma getWorktreeDir_passes_guard_witness :
  readyWt {| p_path := Some (getWorktreeDir Demo.base "feat/a"); p_branch := Some "feat/a" |}
    = Some (getWorktreeDir Demo.base "feat/a", "feat/a").
Proof.
  apply (proj2 (getWorktreeDir_passes_guard Demo.base "feat/a" "feat/a" ltac:(discriminate))).
Defined.

(* ===================================================================== *)
(** * More on the lock manager *)
(* ===================================================================== *)

Section LockMore.
Context {Vcs : Type}.
Variable baseDir : string.
Implicit Types (w : World Vcs) (feature agentId now : string).

Lemma unlockWorktree_free feature agentId (force : bool) w :
  let p := getWorktreeDir baseDir feature in
  is_Some (disk w !! p) ->
  truthy (lockOf (disk w) p) = false ->
  unlockWorktree baseDir feature agentId force w = (Ok tt, w).
Proof.
  intros p [dir H] Hf. unfold unlockWorktree, bind. fold p.
  rewrite (existsSync_Some _ _ _ H). cbn [negb].
  rewrite getLockStatus_run, Hf. reflexivity.
Qed.

Lemma unlockWorktree_refused feature agentId w :
  let p := getWorktreeDir baseDir feature in
  is_Some (disk w !! p) ->
  truthy (lockOf (disk w) p) = true ->
  strictNeqStr (lockOf (disk w) p) agentId = true ->
  unlockWorktree baseDir feature agentId false w
    = (Throw (LockedByAnother (lockOf (disk w) p)), w).
Proof.
  intros p [dir H] Ht Hs. unfold unlockWorktree, bind. fold p.
  rewrite (existsSync_Some _ _ _ H). cbn [negb].
  rewrite getLockStatus_run, Ht. cbn [negb]. rewrite Hs. reflexivity.
Qed.

Lemma unlockWorktree_deletes feature agentId (force : bool) w :
  let p := getWorktreeDir baseDir feature in
  is_Some (disk w !! p) ->
  truthy (lockOf (disk w) p) = true ->
  strictNeqStr (lockOf (disk w) p) agentId = false \/ force = true ->
  unlockWorktree baseDir feature agentId force w = (Ok tt, putMeta p None w) /\
  metaOf (disk (putMeta p None w)) p = None.
Proof.
  intros p Hs Ht Hor. split.
  - apply unlockWorktree_run; [exact Hs|exact Ht|].
    fold p. destruct Hor as [Hor|Hor]; rewrite Hor; [reflexivity|apply andb_false_r].
  - rewrite metaOf_putMeta, decide_True by done. destruct (disk w !! p); reflexivity.
Qed.

(** X7: the four outcomes of [unlockWorktree]: a missing worktree is the
    not-found error; a worktree without a truthy lock owner is left exactly as
    it is; a lock held by another value, without force, is refused and the
    world is unchanged; in every other case (the owner, or anyone with force)
    the metadata file is removed. *)
Theorem unlockWorktree_outcomes feature agentId (force : bool) w :
  let p := getWorktreeDir baseDir feature in
  (disk w !! p = None ->
   unlockWorktree baseDir feature agentId force w = (Throw (NotFound feature), w)) /\
  (is_Some (disk w !! p) ->
   truthy (lockOf (disk w) p) = false ->
   unlockWorktree baseDir feature agentId force w = (Ok tt, w)) /\
  (is_Some (disk w !! p) ->
   truthy (lockOf (disk w) p) = true ->
   strictNeqStr (lockOf (disk w) p) agentId = true ->
   force = false ->
   unlockWorktree baseDir feature agentId force w
     = (Throw (LockedByAnother (lockOf (disk w) p)), w)) /\
  (is_Some (disk w !! p) ->
   truthy (lockOf (disk w) p) = true ->
   strictNeqStr (lockOf (disk w) p) agentId = false \/ force = true ->
   unlockWorktree baseDir feature agentId force w = (Ok tt, putMeta p None w) /\
   metaOf (disk (putMeta p None w)) p = None).
Proof.
  intros p. split; [|split; [|split]].
  - intros H. unfold unlockWorktree, bind. fold p.
    rewrite (existsSync_None _ _ H). reflexivity.
  - apply unlockWorktree_free.
  - intros Hs Ht Hne ->. by apply unlockWorktree_refused.
  - apply unlockWorktree_deletes.
Qed.

(** X8: after a successful [lockWorktree] by any agent, [unlockWorktree] by
    the same agent, without force, succeeds and leaves the worktree without a
    truthy lock owner; for a non-empty agent the metadata file is gone, for
    the empty agent the unlock changes nothing. *)
Theorem lock_then_unlock_unlocked feature agentId now w w1 :
  let p := getWorktreeDir baseDir feature in
  lockWorktree baseDir feature agentId now w = (Ok tt, w1) ->
  exists w2,
    unlockWorktree baseDir feature agentId false w1 = (Ok tt, w2) /\
    truthy (lockOf (disk w2) p) = false /\
    (agentId <> EmptyString -> metaOf (disk w2) p = None) /\
    (agentId = EmptyString -> w2 = w1).
Proof.
  intros p Hrun. apply lockWorktree_Ok_inv in Hrun. fold p in Hrun.
  destruct Hrun as (Hs & _ & ->).
  set (w1 := putMeta p (Some (Json (lockData agentId now))) w).
  assert (Hs1 : is_Some (disk w1 !! p)) by (apply disk_putMeta_is_Some; exact Hs).
  assert (Hlock : lockOf (disk w1) p = Some (JStr agentId))
    by apply (lockOf_after_lock baseDir feature agentId now w Hs).
  pose proof (unlockWorktree_free feature agentId false w1) as Hfree.
  pose proof (unlockWorktree_deletes feature agentId false w1) as Hdel.
  fold p in Hfree, Hdel.
  destruct (Js.is_empty agentId) eqn:He.
  - assert (Hf : truthy (lockOf (disk w1) p) = false) by (rewrite Hlock; cbn; by rewrite He).
    exists w1. split; [by apply Hfree|]. split; [exact Hf|]. split; [|reflexivity].
    intros Hne. destruct agentId; [congruence|discriminate].
  - assert (Ht : truthy (lockOf (disk w1) p) = true) by (rewrite Hlock; cbn; by rewrite He).
    destruct (Hdel Hs1 Ht) as [Hrun Hm].
    { left. rewrite Hlock. cbn. by rewrite String.eqb_refl. }
    exists (putMeta p None w1). split; [exact Hrun|]. split.
    + unfold lockOf, fieldOf, docOf. rewrite Hm. reflexivity.
    + split; [intros _; exact Hm|]. intros ->. discriminate.
Qed.

Lemma handoff_Ok_inv feature agentId now w w1 :
  let p := getWorktreeDir baseDir feature in
  handoff baseDir feature agentId now w = (Ok tt, w1) ->
  is_Some (disk w !! p) /\
  w1 = putMeta p (Some (Json (<["timestamp" := JStr now]>
                              (<["lockedBy" := JStr agentId]>
                               (default ∅ (docOf (disk w) p)))))) w.
Proof.
  intros p Hrun. destruct (disk w !! p) as [dir|] eqn:H.
  - assert (Hs : is_Some (disk w !! p)) by eauto. split; [eauto|].
    assert (Hdec : metaOf (disk w) p = Some Corrupt \/ metaOf (disk w) p <> Some Corrupt).
    { destruct (metaOf _ _) as [[|d]|]; [left; reflexivity|right; congruence..]. }
    destruct Hdec as [Hc|Hc].
    + unfold handoff, bind in Hrun. fold p in Hrun.
      rewrite (existsSync_Some _ _ _ H) in Hrun. cbn [negb] in Hrun.
      rewrite (loadOrEmpty_corrupt _ _ Hc) in Hrun. discriminate.
    + rewrite (handoff_run baseDir feature agentId now w Hs Hc) in Hrun.
      inversion Hrun. reflexivity.
  - unfold handoff, bind in Hrun. fold p in Hrun.
    rewrite (existsSync_None _ _ H) in Hrun. discriminate.
Qed.

(** X9: after a successful [handoff] to a non-empty agent [B], the worktree
    behaves as locked by [B]: a lock by any other agent is refused naming
    [B], an unlock by any other agent without force is refused, and an unlock
    by [B] succeeds and unlocks. *)
Theorem handoff_then_owner_is_new_agent feature A B now now' w w1 :
  let p := getWorktreeDir baseDir feature in
  handoff baseDir feature B now w = (Ok tt, w1) ->
  B <> EmptyString ->
  A <> B ->
  lockOf (disk w1) p = Some (JStr B) /\
  lockWorktree baseDir feature A now' w1 = (Throw (LockConflict (Some (JStr B))), w1) /\
  unlockWorktree baseDir feature A false w1 = (Throw (LockedByAnother (Some (JStr B))), w1) /\
  exists w2,
    unlockWorktree baseDir feature B false w1 = (Ok tt, w2) /\
    lockOf (disk w2) p = None.
Proof.
  intros p Hrun HB HAB. apply handoff_Ok_inv in Hrun. fold p in Hrun.
  destruct Hrun as (Hs & Hw1).
  assert (Hs1 : is_Some (disk w1 !! p)) by (subst w1; apply disk_putMeta_is_Some; exact Hs).
  assert (Hlock : lockOf (disk w1) p = Some (JStr B)).
  { subst w1. destruct Hs as [dir H]. unfold lockOf, fieldOf.
    rewrite (docOf_putMeta_eq _ _ _ _ H). rewrite lookup_insert_ne by done.
    apply lookup_insert_eq. }
  assert (Ht : truthy (lockOf (disk w1) p) = true).
  { rewrite Hlock. cbn. by rewrite (is_empty_false _ HB). }
  assert (Hne : strictNeqStr (lockOf (disk w1) p) A = true).
  { rewrite Hlock. cbn. apply negb_true_iff, String.eqb_neq. congruence. }
  split; [exact Hlock|]. split; [|split].
  - rewrite (lockWorktree_run baseDir feature A now' w1 Hs1). fold p.
    unfold lockedByOther. rewrite Ht, Hne, Hlock. reflexivity.
  - pose proof (unlockWorktree_refused feature A w1) as Hrefuse.
    fold p in Hrefuse. rewrite <- Hlock. by apply Hrefuse.
  - pose proof (unlockWorktree_deletes feature B false w1) as Hdel.
    fold p in Hdel. destruct (Hdel Hs1 Ht) as [Hrun Hm].
    { left. rewrite Hlock. cbn. by rewrite String.eqb_refl. }
    exists (putMeta p None w1). split; [exact Hrun|].
    unfold lockOf, fieldOf, docOf. rewrite Hm. reflexivity.
Qed.

End LockMore.

(* ===================================================================== *)
(** * Context messages *)
(* ===================================================================== *)

Section ContextFacts.
Context {Vcs : Type}.
Variable baseDir : string.
Implicit Types (w : World Vcs) (feature : string).

Lemma contextGet_run feature w :
  let p := getWorktreeDir baseDir feature in
  is_Some (disk w !! p) ->
  contextGet baseDir feature w =
  match metaOf (disk w) p with
  | Some Corrupt => (Throw SyntaxError, w)
  | Some (Json d) => (Ok (d !! "context"), w)
  | None => (Ok None, w)
  end.
Proof.
  intros p [dir H]. unfold contextGet, bind. fold p.
  rewrite (existsSync_Some _ _ _ H). cbn [negb]. rewrite existsMetadata_run.
  destruct (metaOf (disk w) p) as [[|d]|] eqn:E; [| |reflexivity];
    unfold readJson; rewrite E; reflexivity.
Qed.

(** X10: on an existing worktree whose metadata file is absent or parses,
    [contextSet] succeeds and a following [contextGet] returns the message
    just set; every other field of the document, the lock owner among them,
    and every other directory are unchanged. *)
Theorem contextSet_then_contextGet feature (msg : string) w :
  let p := getWorktreeDir baseDir feature in
  is_Some (disk w !! p) ->
  metaOf (disk w) p <> Some Corrupt ->
  exists w1,
    contextSet baseDir feature msg w = (Ok tt, w1) /\
    contextGet baseDir feature w1 = (Ok (Some (JStr msg)), w1) /\
    (forall k, k <> "context" -> fieldOf (disk w1) p k = fieldOf (disk w) p k) /\
    lockOf (disk w1) p = lockOf (disk w) p /\
    (forall q, q <> p -> disk w1 !! q = disk w !! q).
Proof.
  intros p Hs Hc.
  set (w1 := putMeta p (Some (Json (<["context" := JStr msg]> (default ∅ (docOf (disk w) p))))) w).
  assert (Hrun : contextSet baseDir feature msg w = (Ok tt, w1)).
  { destruct Hs as [dir H]. unfold contextSet, bind. fold p.
    rewrite (existsSync_Some _ _ _ H). cbn [negb].
    rewrite (loadOrEmpty_run _ _ Hc). apply (writeJson_run _ _ _ _ H). }
  assert (Hs1 : is_Some (disk w1 !! p)) by (apply disk_putMeta_is_Some; exact Hs).
  assert (Hdoc : docOf (disk w1) p =
                 Some (<["context" := JStr msg]> (default ∅ (docOf (disk w) p)))).
  { destruct Hs as [dir H]. apply (docOf_putMeta_eq _ _ _ _ H). }
  assert (Hfield : forall k, k <> "context" -> fieldOf (disk w1) p k = fieldOf (disk w) p k).
  { intros k Hk. unfold fieldOf. rewrite Hdoc, lookup_insert_ne by done.
    destruct (docOf (disk w) p); reflexivity. }
  exists w1. split; [exact Hrun|]. split; [|split; [exact Hfield|split]].
  - rewrite (contextGet_run feature w1 Hs1). fold p.
    rewrite (docOf_metaOf _ _ _ Hdoc). rewrite lookup_insert_eq. reflexivity.
  - apply Hfield. discriminate.
  - intros q Hq. apply disk_putMeta_ne. congruence.
Qed.

(** X11: [contextGet] never changes the world: on a missing worktree it
    throws the not-found error, on a worktree without metadata file it
    returns [undefined], on one whose metadata does not parse it throws the
    parse error (it has no [try] around [JSON.parse]), and otherwise it
    returns the [context] field, [undefined] when the field is not set. *)
Theorem contextGet_reads_only feature w :
  let p := getWorktreeDir baseDir feature in
  snd (contextGet baseDir feature w) = w /\
  (disk w !! p = None ->
   contextGet baseDir feature w = (Throw (NotFound feature), w)) /\
  (is_Some (disk w !! p) -> metaOf (disk w) p = None ->
   contextGet baseDir feature w = (Ok None, w)) /\
  (is_Some (disk w !! p) -> metaOf (disk w) p = Some Corrupt ->
   contextGet baseDir feature w = (Throw SyntaxError, w)) /\
  (is_Some (disk w !! p) -> forall d, metaOf (disk w) p = Some (Json d) ->
   contextGet baseDir feature w = (Ok (d !! "context"), w)).
Proof.
  intros p.
  assert (Hnone : disk w !! p = None ->
                  contextGet baseDir feature w = (Throw (NotFound feature), w)).
  { intros H. unfold contextGet, bind. fold p. rewrite (existsSync_None _ _ H). reflexivity. }
  split.
  - destruct (disk w !! p) as [dir|] eqn:H.
    + rewrite (contextGet_run feature w) by (fold p; eauto). fold p.
      destruct (metaOf (disk w) p) as [[|d]|]; reflexivity.
    + rewrite (Hnone eq_refl). reflexivity.
  - split; [exact Hnone|]. repeat split.
    + intros Hs Hm. rewrite (contextGet_run feature w Hs). fold p. rewrite Hm. reflexivity.
    + intros Hs Hm. rewrite (contextGet_run feature w Hs). fold p. rewrite Hm. reflexivity.
    + intros Hs d Hm. rewrite (contextGet_run feature w Hs). fold p. rewrite Hm. reflexivity.
Qed.

End ContextFacts.

(* ===================================================================== *)
(** * Locks and context messages on the demo repository *)
(* ===================================================================== *)

Lemma unlockWorktree_outcomes_witness :
  unlockWorktree Demo.base "feat/b" "agentA" false Demo.busy
    = (Throw (NotFound "feat/b"), Demo.busy) /\
  unlockWorktree Demo.base "feat/a" "agentA" false Demo.fresh = (Ok tt, Demo.fresh) /\
  unlockWorktree Demo.base "feat/a" "agentB" false Demo.busy
    = (Throw (LockedByAnother (Some (JStr "agentA"))), Demo.busy) /\
  unlockWorktree Demo.base "feat/a" "agentB" true Demo.busy
    = (Ok tt, putMeta Demo.pathA None Demo.busy).
Proof.
  split; [|split; [|split]].
  - apply (proj1 (unlockWorktree_outcomes Demo.base "feat/b" "agentA" false Demo.busy)).
    vm_compute. reflexivity.
  - apply (proj1 (proj2 (unlockWorktree_outcomes Demo.base "feat/a" "agentA" false Demo.fresh))).
    + vm_compute. eauto.
    + vm_compute. reflexivity.
  - apply (proj1 (proj2 (proj2
      (unlockWorktree_outcomes Demo.base "feat/a" "agentB" false Demo.busy)))).
    + vm_compute. eauto.
    + vm_compute. reflexivity.
    + vm_compute. reflexivity.
    + reflexivity.
  - apply (proj2 (proj2 (proj2
      (unlockWorktree_outcomes Demo.base "feat/a" "agentB" true Demo.busy)))).
    + vm_compute. eauto.
    + vm_compute. reflexivity.
    + right. reflexivity.
Defined.

Lemma lock_then_unlock_unlocked_witness :
  exists w2,
    unlockWorktree Demo.base "feat/a" "agentA" false
      (snd (lockWorktree Demo.base "feat/a" "agentA" "t0" Demo.fresh)) = (Ok tt, w2) /\
    metaOf (disk w2) Demo.pathA = None.
Proof.
  destruct (lock_then_unlock_unlocked Demo.base "feat/a" "agentA" "t0" Demo.fresh
              (snd (lockWorktree Demo.base "feat/a" "agentA" "t0" Demo.fresh)))
    as (w2 & Hrun & _ & Hgone & _).
  - vm_compute. reflexivity.
  - exists w2. split; [exact Hrun|]. apply Hgone. discriminate.
Defined.

Lemma handoff_then_owner_is_new_agent_witness :
  let w1 := snd (handoff Demo.base "feat/a" "agentB" "t1" Demo.busy) in
  lockOf (disk Demo.busy) Demo.pathA = Some (JStr "agentA") /\
  lockWorktree Demo.base "feat/a" "agentA" "t2" w1
    = (Throw (LockConflict (Some (JStr "agentB"))), w1) /\
  unlockWorktree Demo.base "feat/a" "agentA" false w1
    = (Throw (LockedByAnother (Some (JStr "agentB"))), w1).
Proof.
  split; [vm_compute; reflexivity|].
  destruct (handoff_then_owner_is_new_agent Demo.base "feat/a" "agentA" "agentB" "t1" "t2"
              Demo.busy (snd (handoff Demo.base "feat/a" "agentB" "t1" Demo.busy)))
    as (_ & Hlock & Hunlock & _).
  - vm_compute. reflexivity.
  - discriminate.
  - discriminate.
  - split; [exact Hlock|exact Hunlock].
Defined.

Lemma contextSet_then_contextGet_witness :
  exists w1,
    contextSet Demo.base "feat/a" "Goal: ship" Demo.busy = (Ok tt, w1) /\
    contextGet Demo.base "feat/a" w1 = (Ok (Some (JStr "Goal: ship")), w1) /\
    lockOf (disk w1) Demo.pathA = Some (JStr "agentA") /\
    fieldOf (disk w1) Demo.pathA "port" = Some (JNum 8000).
Proof.
  destruct (contextSet_then_contextGet Demo.base "feat/a" "Goal: ship" Demo.busy)
    as (w1 & Hset & Hget & Hframe & Hlock & _).
  - vm_compute. eauto.
  - vm_compute. discriminate.
  - exists w1. split; [exact Hset|]. split; [exact Hget|]. split.
    + transitivity (lockOf (disk Demo.busy) Demo.pathA);
        [exact Hlock|vm_compute; reflexivity].
    + transitivity (fieldOf (disk Demo.busy) Demo.pathA "port");
        [exact (Hframe "port" ltac:(discriminate))|vm_compute; reflexivity].
Defined.

Lemma contextGet_reads_only_witness :
  contextGet Demo.base "feat/b" Demo.busy = (Throw (NotFound "feat/b"), Demo.busy) /\
  contextGet Demo.base "feat/a" Demo.fresh = (Ok None, Demo.fresh) /\
  contextGet Demo.base "feat/a" Demo.broken = (Throw SyntaxError, Demo.broken) /\
  contextGet Demo.base "feat/a" Demo.busy = (Ok (Some (JStr "Goal: fix UI")), Demo.busy).
Proof.
  split; [|split; [|split]].
  - apply (proj1 (proj2 (contextGet_reads_only Demo.base "feat/b" Demo.busy))).
    vm_compute. reflexivity.
  - apply (proj1 (proj2 (proj2 (contextGet_reads_only Demo.base "feat/a" Demo.fresh)))).
    + vm_compute. eauto.
    + vm_compute. reflexivity.
  - apply (proj1 (proj2 (proj2 (proj2
      (contextGet_reads_only Demo.base "feat/a" Demo.broken))))).
    + vm_compute. eauto.
    + vm_compute. reflexivity.
  - change (Some (JStr "Goal: fix UI")) with (Demo.fullDoc !! "context").
    + apply (proj2 (proj2 (proj2 (proj2
        (contextGet_reads_only Demo.base "feat/a" Demo.busy))))).
      * vm_compute. eauto.
      * vm_compute. reflexivity.
Defined.

(* ===================================================================== *)
(** * Releasing a port *)
(* ===================================================================== *)

Section ReleaseFacts.
Context {Vcs : Type}.
Variable baseDir : string.
Implicit Types (w : World Vcs) (feature : string).

Lemma portRelease_idle feature w :
  let p := getWorktreeDir baseDir feature in
  is_Some (disk w !! p) ->
  metaOf (disk w) p <> Some Corrupt ->
  truthy (fieldOf (disk w) p "port") = false ->
  portRelease baseDir feature w = (Ok tt, w).
Proof.
  intros p [dir H] Hc Hf. unfold portRelease, bind. fold p.
  rewrite (existsSync_Some _ _ _ H). cbn [negb]. rewrite existsMetadata_run.
  unfold fieldOf, docOf in Hf.
  destruct (metaOf (disk w) p) as [[|d]|] eqn:E; [congruence| |reflexivity].
  unfold readJson. rewrite E, Hf. reflexivity.
Qed.

(** X12: [portRelease] on a missing worktree is the not-found error and on
    unparseable metadata the parse error, both without a change. Otherwise
    it succeeds, leaves the worktree without a truthy [port] field, keeps
    every other field of the document, every other directory and the
    [.env.local] file (whose [PORT] line it does not touch), and a second
    release changes nothing more. *)
Theorem portRelease_outcomes feature w :
  let p := getWorktreeDir baseDir feature in
  (disk w !! p = None ->
   portRelease baseDir feature w = (Throw (NotFound feature), w)) /\
  (is_Some (disk w !! p) -> metaOf (disk w) p = Some Corrupt ->
   portRelease baseDir feature w = (Throw SyntaxError, w)) /\
  (is_Some (disk w !! p) -> metaOf (disk w) p <> Some Corrupt ->
   exists w1,
     portRelease baseDir feature w = (Ok tt, w1) /\
     truthy (fieldOf (disk w1) p "port") = false /\
     (forall k, k <> "port" -> fieldOf (disk w1) p k = fieldOf (disk w) p k) /\
     envOf (disk w1) p = envOf (disk w) p /\
     (forall q, q <> p -> disk w1 !! q = disk w !! q) /\
     portRelease baseDir feature w1 = (Ok tt, w1)).
Proof.
  intros p. split; [|split].
  - intros H. unfold portRelease, bind. fold p.
    rewrite (existsSync_None _ _ H). reflexivity.
  - intros [dir H] Hc. unfold portRelease, bind. fold p.
    rewrite (existsSync_Some _ _ _ H). cbn [negb]. rewrite existsMetadata_run, Hc.
    unfold readJson. rewrite Hc. reflexivity.
  - intros Hs Hc. destruct (truthy (fieldOf (disk w) p "port")) eqn:Ht.
    + unfold fieldOf in Ht. destruct (docOf (disk w) p) as [d|] eqn:Hd; [|discriminate].
      set (w1 := putMeta p (Some (Json (delete "port" d))) w).
      assert (Hs1 : is_Some (disk w1 !! p)) by (apply disk_putMeta_is_Some; exact Hs).
      assert (Hd1 : docOf (disk w1) p = Some (delete "port" d)).
      { destruct Hs as [dir H]. apply (docOf_putMeta_eq _ _ _ _ H). }
      assert (Hf1 : truthy (fieldOf (disk w1) p "port") = false).
      { unfold fieldOf. rewrite Hd1, lookup_delete_eq. reflexivity. }
      exists w1. split; [exact (portRelease_run baseDir feature w d Hs Hd Ht)|].
      split; [exact Hf1|]. split; [|split; [|split]].
      * intros k Hk. unfold fieldOf. rewrite Hd1, Hd. apply lookup_delete_ne. congruence.
      * apply envOf_putMeta.
      * intros q Hq. apply disk_putMeta_ne. congruence.
      * apply portRelease_idle; fold p; [exact Hs1| |exact Hf1].
        rewrite (docOf_metaOf _ _ _ Hd1). discriminate.
    + exists w. pose proof (portRelease_idle feature w Hs Hc Ht) as Hrun.
      split; [exact Hrun|]. split; [exact Ht|]. repeat split. exact Hrun.
Qed.

End ReleaseFacts.

(* ===================================================================== *)
(** * More on port leases *)
(* ===================================================================== *)

Section PortMore.
Context {Vcs : Type}.
Variable run : string -> string -> World Vcs -> Outcome * World Vcs.
Variable baseDir : string.
Implicit Types (w : World Vcs) (feature : string).

(** The listing and status commands leave the directories as they are. *)
Hypothesis run_query :
  forall cmd cwd w, isQuery cmd = true -> disk (snd (run cmd cwd w)) = disk w.

Lemma disk_putEnv_ne p s w q : p <> q -> disk (putEnv p s w) !! q = disk w !! q.
Proof. intros H. unfold putEnv. simpl. by rewrite lookup_alter_ne. Qed.

Lemma envOf_putEnv_eq p s w :
  is_Some (disk w !! p) -> envOf (disk (putEnv p s w)) p = Some s.
Proof.
  intros [dir H]. unfold envOf, putEnv. simpl. rewrite lookup_alter_eq, H. reflexivity.
Qed.

(** X13: the refusals of [portRequest] come before anything is written. A
    missing worktree is the not-found error, in the same world; a failure of
    the listing command is thrown as it is; once the registry has answered,
    an exhausted pool is the range error and, when a port is free, an
    unparseable metadata file of the requester is the parse error (although
    the scan skips the unparseable files of the other worktrees). In each of
    these cases the directories are as before the call. *)
Theorem portRequest_refusals_write_nothing feature w :
  let p := getWorktreeDir baseDir feature in
  (disk w !! p = None ->
   portRequest run baseDir feature w = (Throw (NotFound feature), w)) /\
  (is_Some (disk w !! p) ->
   forall msg w0, run LIST_CMD baseDir w = (Failed msg, w0) ->
     portRequest run baseDir feature w = (Throw (CommandFailure msg), w0) /\
     disk w0 = disk w) /\
  (is_Some (disk w !! p) ->
   forall wts w1, listWorktrees run baseDir w = (Ok wts, w1) ->
     disk w1 = disk w /\
     (firstFreePort (usedPortsOf (disk w) wts) = -1 ->
      portRequest run baseDir feature w = (Throw RangeExhausted, w1)) /\
     (firstFreePort (usedPortsOf (disk w) wts) <> -1 ->
      metaOf (disk w) p = Some Corrupt ->
      portRequest run baseDir feature w = (Throw SyntaxError, w1))).
Proof.
  intros p. split; [|split].
  - intros H. unfold portRequest, bind. fold p.
    rewrite (existsSync_None _ _ H). reflexivity.
  - intros [dir H] msg w0 Hlist. split.
    + unfold portRequest, bind. fold p.
      rewrite (existsSync_Some _ _ _ H). cbn [negb].
      rewrite (listWorktrees_failed run baseDir w msg w0 Hlist). reflexivity.
    + replace w0 with (snd (run LIST_CMD baseDir w)) by (rewrite Hlist; reflexivity).
      apply run_query. reflexivity.
  - intros [dir H] wts w1 Hl.
    destruct (listWorktrees_Ok_shape run baseDir run_query w wts w1 Hl) as (_ & _ & _ & Hd).
    split; [exact Hd|]. split.
    + intros Hfull. unfold portRequest, bind. fold p.
      rewrite (existsSync_Some _ _ _ H). cbn [negb]. rewrite Hl.
      rewrite foldM_collect. fold (usedPortsOf (disk w1) wts). rewrite Hd, Hfull.
      reflexivity.
    + intros Hfree Hc. unfold portRequest, bind. fold p.
      rewrite (existsSync_Some _ _ _ H). cbn [negb]. rewrite Hl.
      rewrite foldM_collect. fold (usedPortsOf (disk w1) wts). rewrite Hd.
      apply Z.eqb_neq in Hfree. rewrite Hfree.
      rewrite loadOrEmpty_corrupt by (rewrite Hd; exact Hc). reflexivity.
Qed.

(** X14: a [portRequest] that returns port [n] has set the [port] field of
    the requester to [n] and written its [.env.local]; every other field of
    the requester's document (its lock owner, context and checkpoint) and
    every other directory are as before the call. *)
Theorem portRequest_success_frame feature w n w' :
  let p := getWorktreeDir baseDir feature in
  portRequest run baseDir feature w = (Ok n, w') ->
  fieldOf (disk w') p "port" = Some (JNum n) /\
  (forall k, k <> "port" -> fieldOf (disk w') p k = fieldOf (disk w) p k) /\
  envOf (disk w') p = Some (upsertPort (default EmptyString (envOf (disk w) p)) n) /\
  (forall q, q <> p -> disk w' !! q = disk w !! q).
Proof.
  intros p Hrun. apply portRequest_inv in Hrun. fold p in Hrun.
  destruct Hrun as (wts & w1 & Hs & Hl & Hs1 & Hc & _ & _ & ->).
  destruct (listWorktrees_Ok_shape run baseDir run_query w wts w1 Hl) as (_ & _ & _ & Hd).
  split; [apply fieldOf_leased_port, Hs1|]. split; [|split].
  - intros k Hk. rewrite (fieldOf_leased_field _ _ _ _ Hk). by rewrite Hd.
  - unfold leased. rewrite envOf_putEnv_eq by (apply disk_putMeta_is_Some; exact Hs1).
    by rewrite Hd.
  - intros q Hq. unfold leased. rewrite disk_putEnv_ne by congruence.
    rewrite disk_putMeta_ne by congruence. by rewrite Hd.
Qed.

End PortMore.

(* ===================================================================== *)
(** * Port leases on the demo repository, continued *)
(* ===================================================================== *)

Lemma portRelease_outcomes_witness :
  exists w1,
    portRelease Demo.base "feat/a" Demo.busy = (Ok tt, w1) /\
    fieldOf (disk Demo.busy) Demo.pathA "port" = Some (JNum 8000) /\
    truthy (fieldOf (disk w1) Demo.pathA "port") = false /\
    portRelease Demo.base "feat/a" w1 = (Ok tt, w1).
Proof.
  destruct (proj2 (proj2 (portRelease_outcomes Demo.base "feat/a" Demo.busy)))
    as (w1 & Hrun & Hfree & _ & _ & _ & Hagain).
  - vm_compute. eauto.
  - vm_compute. discriminate.
  - exists w1. split; [exact Hrun|]. split; [vm_compute; reflexivity|].
    split; [exact Hfree|exact Hagain].
Defined.

Lemma portRequest_refusals_write_nothing_witness :
  let w1 := snd (listWorktrees Demo.git Demo.base Demo.broken) in
  portRequest Demo.git Demo.base "feat/a" Demo.broken = (Throw SyntaxError, w1) /\
  disk w1 = disk Demo.broken /\
  portRequest Demo.git Demo.base "feat/b" Demo.broken
    = (Throw (NotFound "feat/b"), Demo.broken).
Proof.
  intros w1.
  pose proof (portRequest_refusals_write_nothing Demo.git Demo.base demo_git_query
                "feat/a" Demo.broken) as (_ & _ & Hlisted).
  destruct (Hlisted ltac:(vm_compute; eauto) Demo.wtsAB w1 ltac:(vm_compute; reflexivity))
    as (Hd & _ & Hcorrupt).
  split; [|split; [exact Hd|]].
  - apply Hcorrupt; [vm_compute; discriminate|vm_compute; reflexivity].
  - apply (proj1 (portRequest_refusals_write_nothing Demo.git Demo.base demo_git_query
                    "feat/b" Demo.broken)).
    vm_compute. reflexivity.
Defined.

Lemma portRequest_success_frame_witness :
  let w' := snd (portRequest Demo.git Demo.base "feat/a" Demo.busy) in
  portRequest Demo.git Demo.base "feat/a" Demo.busy = (Ok 8001, w') /\
  fieldOf (disk w') Demo.pathA "port" = Some (JNum 8001) /\
  lockOf (disk w') Demo.pathA = Some (JStr "agentA").
Proof.
  intros w'.
  assert (Hrun : portRequest Demo.git Demo.base "feat/a" Demo.busy = (Ok 8001, w'))
    by (vm_compute; reflexivity).
  destruct (portRequest_success_frame Demo.git Demo.base demo_git_query
              "feat/a" Demo.busy 8001 w' Hrun) as (Hport & Hframe & _ & _).
  split; [exact Hrun|]. split; [exact Hport|].
  transitivity (fieldOf (disk Demo.busy) Demo.pathA "lockedBy");
    [exact (Hframe "lockedBy" ltac:(discriminate))|vm_compute; reflexivity].
Defined.
